(** * The VBO term merger ([scripts/dadis_client/vbo_sandbox.ipynb])

    The notebook defines one function, [merge], over a pandas DataFrame.
    This file embeds the DataFrame operations that [merge] calls, with the
    objects they allocate and mutate kept in an explicit store, embeds
    [merge] line by line on top of them, and proves the properties of the
    term table that the specification states.

    What the embedding fixes:
    - the term table is a table of text: a cell is a [str] or [NaN], the ids
      are [str] and the issue is an [int]; the dtype of a column is not
      kept, and where [merge] is shown to return, the label column of the
      table holds a [str] (on a label column without any, which pandas may
      hold as float64, the string concatenation of [merge] raises
      [TypeError], which this file does not cover);
    - a DataFrame is a header and a list of rows; a row carries its index
      label, which no operation of [merge] reads (a mask or a series that
      [merge] applies to a frame was computed from that very frame, so
      pandas aligns them position by position);
    - DataFrame objects live in a store and variables hold references:
      [df[mask]], [.copy()] and [pd.concat] allocate, [df[c] = v] updates in
      place;
    - a call ends with a value, with a Python exception, or, outside of what
      Python can do, on a reference that names no object. *)

From stdpp Require Import base gmap strings list fin_maps pretty.

Open Scope string_scope.
Open Scope list_scope.

(** ** Data model *)

(** A cell of the term table: a Python [str], or the missing value that
    pandas writes [NaN].  The dtype of a column is not kept (see
    [text_column] for the one place where [merge] depends on it). *)
Inductive cell : Type :=
  | NaN
  | Str (s : string).

#[global] Instance cell_eq_dec : EqDecision cell.
Proof. solve_decision. Defined.

(** One row of a DataFrame: its index label and its cells by column name. *)
Record Row : Type := mkRow {
  label : nat;
  cells : gmap string cell
}.

#[global] Instance Row_eq_dec : EqDecision Row.
Proof. solve_decision. Defined.

(** A DataFrame: the header, in order, and the rows, in order. *)
Record DataFrame : Type := mkFrame {
  columns : list string;
  rows : list Row
}.

#[global] Instance DataFrame_eq_dec : EqDecision DataFrame.
Proof. solve_decision. Defined.

(** The frame is rectangular: no column name occurs twice and every row has
    a cell for exactly the columns of the header. *)
Definition wf_frame (df : DataFrame) : Prop :=
  NoDup (columns df) ∧
  Forall (λ r, dom (cells r) = list_to_set (columns df)) (rows df).

#[global] Instance wf_frame_dec df : Decision (wf_frame df).
Proof. unfold wf_frame. apply _. Defined.

(** ** The store of DataFrame objects

    Python variables hold references.  A reference is the position of the
    object in the store, in allocation order. *)
Definition loc : Type := nat.

Inductive exn : Type :=
  | KeyError (key : string)
  | IndexError
  | ValueError.

#[global] Instance exn_eq_dec : EqDecision exn.
Proof. solve_decision. Defined.

(** What a run gives: a value, a raised exception, or [Dangling] when a
    reference names no object of the store (no Python run gets there). *)
Inductive outcome (A : Type) : Type :=
  | Ok (a : A)
  | Raise (e : exn)
  | Dangling.
Arguments Ok {A} a.
Arguments Raise {A} e.
Arguments Dangling {A}.

Definition M (A : Type) : Type := list DataFrame → outcome A * list DataFrame.

#[global] Instance M_ret : MRet M := λ A a h, (Ok a, h).

#[global] Instance M_bind : MBind M := λ A B k m h,
  match m h with
  | (Ok a, h') => k a h'
  | (Raise e, h') => (Raise e, h')
  | (Dangling, h') => (Dangling, h')
  end.

Definition raise {A} (e : exn) : M A := λ h, (Raise e, h).

Definition get_frame (l : loc) : M DataFrame := λ h,
  match h !! l with
  | Some df => (Ok df, h)
  | None => (Dangling, h)
  end.

Definition put_frame (l : loc) (df : DataFrame) : M unit := λ h,
  match h !! l with
  | Some _ => (Ok tt, <[l := df]> h)
  | None => (Dangling, h)
  end.

Definition new_frame (df : DataFrame) : M loc := λ h,
  (Ok (length h), h ++ [df]).

(** ** The pandas operations that [merge] calls *)

(** The cell of row [r] in column [c]. *)
Definition cell_at (c : string) (r : Row) : cell := default NaN (cells r !! c).

(** [df[c]] read as a column: [KeyError] when the header has no [c]. *)
Definition getitem (l : loc) (c : string) : M (list cell) :=
  df ← get_frame l;
  if decide (c ∈ columns df) then mret (cell_at c <$> rows df)
  else raise (KeyError c).

(** [series == x] for a [str] [x]: element by element, never true on [NaN]. *)
Definition cell_eqb (x : string) (v : cell) : bool :=
  match v with
  | Str s => bool_decide (s = x)
  | NaN => false
  end.

Definition series_eq (vs : list cell) (x : string) : list bool :=
  cell_eqb x <$> vs.

(** The rows kept by a boolean mask, position by position. *)
Fixpoint mask_rows (rs : list Row) (mask : list bool) : list Row :=
  match rs, mask with
  | r :: rs', b :: mask' =>
      if b then r :: mask_rows rs' mask' else mask_rows rs' mask'
  | _, _ => []
  end.

(** [df[mask]]: a new DataFrame with the rows where the mask is true;
    [ValueError] for a mask of the wrong length. *)
Definition getitem_mask (l : loc) (mask : list bool) : M loc :=
  df ← get_frame l;
  if decide (length mask = length (rows df))
  then new_frame (mkFrame (columns df) (mask_rows (rows df) mask))
  else raise ValueError.

(** [df.copy()]: a new object with the same header and rows. *)
Definition copy (l : loc) : M loc :=
  df ← get_frame l;
  new_frame df.

(** [series.values[0]]: [IndexError] on an empty column. *)
Definition values0 (vs : list cell) : M cell :=
  match vs with
  | v :: _ => mret v
  | [] => raise IndexError
  end.

(** [df.columns]. *)
Definition frame_columns (l : loc) : M (list string) :=
  df ← get_frame l;
  mret (columns df).

Definition set_cell (c : string) (v : cell) (r : Row) : Row :=
  mkRow (label r) (<[c := v]> (cells r)).

(** The header after an assignment to column [c]: a new column goes last. *)
Definition add_column (c : string) (cs : list string) : list string :=
  if decide (c ∈ cs) then cs else cs ++ [c].

(** The frame after [df[c] = v] for a scalar [v]: every row gets [v] in
    column [c]. *)
Definition assign (c : string) (v : cell) (df : DataFrame) : DataFrame :=
  mkFrame (add_column c (columns df)) (set_cell c v <$> rows df).

(** The frame after [df[c] = series] for a series computed from [df] itself
    (it has the index of [df], so pandas assigns position by position). *)
Definition assign_series (c : string) (vs : list cell) (df : DataFrame)
    : DataFrame :=
  mkFrame (add_column c (columns df))
          (zip_with (λ r v, set_cell c v r) (rows df) vs).

(** [df[c] = v], in place. *)
Definition setitem (l : loc) (c : string) (v : cell) : M unit :=
  df ← get_frame l;
  put_frame l (assign c v df).

(** [df[c] = series], in place; [ValueError] for a series of the wrong
    length. *)
Definition setitem_series (l : loc) (c : string) (vs : list cell) : M unit :=
  df ← get_frame l;
  if decide (length vs = length (rows df))
  then put_frame l (assign_series c vs df)
  else raise ValueError.

(** [s + series] for a [str] [s], on a text column: [NaN] stays [NaN].
    (On a float64 column pandas raises [TypeError]; the statements below
    that conclude a return of [merge] take a table whose label column holds
    a [str].) *)
Definition str_radd (s : string) (v : cell) : cell :=
  match v with
  | Str t => Str (s +:+ t)
  | NaN => NaN
  end.

(** The header of [pd.concat]: every column of every frame, in the order of
    first appearance. *)
Definition union_columns (dfs : list DataFrame) : list string :=
  foldl (λ acc df, foldl (λ acc' c, add_column c acc') acc (columns df)) [] dfs.

(** A row taken into a frame with header [cs]: [NaN] where it has no cell. *)
Definition fill_row (cs : list string) (r : Row) : Row :=
  mkRow (label r)
        (foldr (λ c m, match m !! c with Some _ => m | None => <[c := NaN]> m end)
               (cells r) cs).

Definition concat_frames (dfs : list DataFrame) : DataFrame :=
  let cs := union_columns dfs in
  mkFrame cs (dfs ≫= λ df, fill_row cs <$> rows df).

Fixpoint get_frames (ls : list loc) : M (list DataFrame) :=
  match ls with
  | [] => mret []
  | l :: ls' => df ← get_frame l; dfs ← get_frames ls'; mret (df :: dfs)
  end.

(** [pd.concat(frames)]: a new DataFrame, the rows of the frames one after
    the other. *)
Definition concat (ls : list loc) : M loc :=
  dfs ← get_frames ls;
  new_frame (concat_frames dfs).

(** A Python [for] loop over a list, for its effects. *)
Fixpoint for_each {A} (xs : list A) (body : A → M unit) : M unit :=
  match xs with
  | [] => mret tt
  | x :: xs' => body x;; for_each xs' body
  end.

(** ["https://.../issues/{issue}".format(issue=issue)] for an [int]. *)
Definition issue_url (issue : Z) : string :=
  "https://github.com/monarch-initiative/vertebrate-breed-ontology/issues/"
  +:+ pretty issue.

(** ** [merge] *)

Definition list_of_columns_to_keep : list string :=
  ["term_label"; "vbo_id"; "contributor"].

Definition merge (df : loc) (term_to_obsolete term_to_merge_into : string)
    (issue : Z) : M loc :=
  (* df_term_to_merge_into = df[df["vbo_id"]==term_to_merge_into].copy() *)
  ids ← getitem df "vbo_id";
  sel ← getitem_mask df (series_eq ids term_to_merge_into);
  df_term_to_merge_into ← copy sel;
  (* df_term_to_obsolete = df[df["vbo_id"]==term_to_obsolete].copy() *)
  ids ← getitem df "vbo_id";
  sel ← getitem_mask df (series_eq ids term_to_obsolete);
  df_term_to_obsolete ← copy sel;
  (* df_term_to_obsolete2 = df_term_to_obsolete.copy() *)
  df_term_to_obsolete2 ← copy df_term_to_obsolete;
  (* term_to_merge_into_label = df_term_to_merge_into["term_label"].values[0] *)
  labels ← getitem df_term_to_merge_into "term_label";
  term_to_merge_into_label ← values0 labels;
  (* term_to_obsolete_label = df_term_to_obsolete["term_label"].values[0] *)
  labels ← getitem df_term_to_obsolete "term_label";
  term_to_obsolete_label ← values0 labels;
  (* for column in df_term_to_obsolete.columns:
         if column not in list_of_columns_to_keep:
             df_term_to_obsolete[column] = '' *)
  cols ← frame_columns df_term_to_obsolete;
  for_each cols (λ column,
    if decide (column ∉ list_of_columns_to_keep)
    then setitem df_term_to_obsolete column (Str "")
    else mret tt);;
  (* df_term_to_obsolete['term_label'] =
         "obsolete " + df_term_to_obsolete['term_label'] *)
  labels ← getitem df_term_to_obsolete "term_label";
  setitem_series df_term_to_obsolete "term_label"
    (str_radd "obsolete " <$> labels);;
  setitem df_term_to_obsolete "obsoletion_type" (Str "owl:Class");;
  setitem df_term_to_obsolete "obsolete" (Str "true");;
  setitem df_term_to_obsolete "contributors" (Str "");;
  setitem df_term_to_obsolete "replacement_term" (Str term_to_merge_into);;
  setitem df_term_to_obsolete "replacement_label" term_to_merge_into_label;;
  setitem df_term_to_obsolete "obsolescence_reason" (Str "terms merged");;
  setitem df_term_to_obsolete "GH_issue" (Str (issue_url issue));;
  (* Update duplicated *)
  setitem df_term_to_obsolete2 "vbo_id" (Str term_to_merge_into);;
  setitem df_term_to_obsolete2 "term_label" (Str "");;
  setitem df_term_to_obsolete2 "synonym_label_from_merged_term"
    term_to_obsolete_label;;
  setitem df_term_to_obsolete2 "source_for_merged_term" (Str term_to_obsolete);;
  setitem df_term_to_obsolete2 "synonym_type_most_common_name" (Str "");;
  setitem df_term_to_obsolete2 "GH_issue" (Str (issue_url issue));;
  (* return pd.concat([df_term_to_obsolete, df_term_to_obsolete2,
                       df_term_to_merge_into]) *)
  concat [df_term_to_obsolete; df_term_to_obsolete2; df_term_to_merge_into].

(** ** Vocabulary of the statements *)

(** Row [r] is a row of term [x]: the mask [df["vbo_id"] == x] is true on it. *)
Definition has_id (x : string) (r : Row) : Prop :=
  cells r !! "vbo_id" = Some (Str x).

#[global] Instance has_id_dec x r : Decision (has_id x r).
Proof. unfold has_id. apply _. Defined.

(** The rows of term [x] in a table, in table order. *)
Definition matching (x : string) (df : DataFrame) : list Row :=
  filter (has_id x) (rows df).

(** The frame [df[df["vbo_id"] == x]]. *)
Definition select (x : string) (df : DataFrame) : DataFrame :=
  mkFrame (columns df) (matching x df).

(** The call [m], run on the store [h], returns a reference to a frame that
    reads [out] when the call is over. *)
Definition returns (m : M loc) (h : list DataFrame) (out : DataFrame) : Prop :=
  ∃ l' h', m h = (Ok l', h') ∧ h' !! l' = Some out.

(** The call [m], run on the store [h], ends by raising [e]. *)
Definition raises {A} (m : M A) (h : list DataFrame) (e : exn) : Prop :=
  ∃ h', m h = (Raise e, h').

(** The columns that [merge] reads or assigns by name. *)
Definition expected_columns : list string :=
  ["vbo_id"; "term_label"; "contributor"; "obsoletion_type"; "obsolete";
   "contributors"; "replacement_term"; "replacement_label";
   "obsolescence_reason"; "GH_issue"; "synonym_label_from_merged_term";
   "source_for_merged_term"; "synonym_type_most_common_name"].

(** ** The frames that a run of [merge] builds *)

(** One round of the blanking loop, seen from the frame. *)
Definition blank_step (d : DataFrame) (column : string) : DataFrame :=
  if decide (column ∉ list_of_columns_to_keep) then assign column (Str "") d
  else d.

(** [df_term_to_obsolete] when [merge] reaches [pd.concat]; [d] is the frame
    as selected and [lbl] the value of [term_to_merge_into_label]. *)
Definition obsoletion_frame (d : DataFrame) (term_to_merge_into : string)
    (lbl : cell) (issue : Z) : DataFrame :=
  let d0 := foldl blank_step d (columns d) in
  let d1 := assign_series "term_label"
              (str_radd "obsolete " <$> (cell_at "term_label" <$> rows d0)) d0 in
  assign "GH_issue" (Str (issue_url issue))
    (assign "obsolescence_reason" (Str "terms merged")
      (assign "replacement_label" lbl
        (assign "replacement_term" (Str term_to_merge_into)
          (assign "contributors" (Str "")
            (assign "obsolete" (Str "true")
              (assign "obsoletion_type" (Str "owl:Class") d1)))))).

(** [df_term_to_obsolete2] when [merge] reaches [pd.concat]; [lbl] is the
    value of [term_to_obsolete_label]. *)
Definition synonym_frame (d : DataFrame)
    (term_to_obsolete term_to_merge_into : string) (lbl : cell) (issue : Z)
    : DataFrame :=
  assign "GH_issue" (Str (issue_url issue))
    (assign "synonym_type_most_common_name" (Str "")
      (assign "source_for_merged_term" (Str term_to_obsolete)
        (assign "synonym_label_from_merged_term" lbl
          (assign "term_label" (Str "")
            (assign "vbo_id" (Str term_to_merge_into) d))))).

(** ** The rows of these frames *)

(** The columns that [merge] assigns in [df_term_to_obsolete] after the
    blanking loop, and in [df_term_to_obsolete2]. *)
Definition obsoletion_assigned : list string :=
  ["obsoletion_type"; "obsolete"; "contributors"; "replacement_term";
   "replacement_label"; "obsolescence_reason"; "GH_issue"].

Definition synonym_assigned : list string :=
  ["vbo_id"; "term_label"; "synonym_label_from_merged_term";
   "source_for_merged_term"; "synonym_type_most_common_name"; "GH_issue"].

(** One round of the blanking loop, seen from one row. *)
Definition blank_cell (r : Row) (column : string) : Row :=
  if decide (column ∉ list_of_columns_to_keep) then set_cell column (Str "") r
  else r.

(** What [merge] makes of a row of [df_term_to_obsolete]; [cs] is the header
    that the blanking loop runs over. *)
Definition obsoletion_row (cs : list string) (term_to_merge_into : string)
    (lbl : cell) (issue : Z) (r : Row) : Row :=
  let r0 := foldl blank_cell r cs in
  set_cell "GH_issue" (Str (issue_url issue))
    (set_cell "obsolescence_reason" (Str "terms merged")
      (set_cell "replacement_label" lbl
        (set_cell "replacement_term" (Str term_to_merge_into)
          (set_cell "contributors" (Str "")
            (set_cell "obsolete" (Str "true")
              (set_cell "obsoletion_type" (Str "owl:Class")
                (set_cell "term_label"
                   (str_radd "obsolete " (cell_at "term_label" r0)) r0))))))).

(** What [merge] makes of a row of [df_term_to_obsolete2]. *)
Definition synonym_row (term_to_obsolete term_to_merge_into : string)
    (lbl : cell) (issue : Z) (r : Row) : Row :=
  set_cell "GH_issue" (Str (issue_url issue))
    (set_cell "synonym_type_most_common_name" (Str "")
      (set_cell "source_for_merged_term" (Str term_to_obsolete)
        (set_cell "synonym_label_from_merged_term" lbl
          (set_cell "term_label" (Str "")
            (set_cell "vbo_id" (Str term_to_merge_into) r))))).

(** ** A sample table *)

Definition row_of (i : nat) (kvs : list (string * cell)) : Row :=
  mkRow i (list_to_map kvs).

Definition sample_columns : list string :=
  ["vbo_id"; "term_label"; "contributor"; "obsoletion_type"; "obsolete";
   "contributors"; "replacement_term"; "replacement_label";
   "obsolescence_reason"; "GH_issue"; "synonym_label_from_merged_term";
   "source_for_merged_term"; "synonym_type_most_common_name"; "species"].

Definition sample_row (i : nat) (id lbl who species : string) : Row :=
  row_of i
    [("vbo_id", Str id); ("term_label", Str lbl); ("contributor", Str who);
     ("obsoletion_type", NaN); ("obsolete", NaN); ("contributors", Str who);
     ("replacement_term", NaN); ("replacement_label", NaN);
     ("obsolescence_reason", NaN); ("GH_issue", NaN);
     ("synonym_label_from_merged_term", NaN); ("source_for_merged_term", NaN);
     ("synonym_type_most_common_name", Str "x"); ("species", Str species)].

Definition sample_A : Row := sample_row 1 "A" "Foo" "orcid:1" "dog".
Definition sample_B : Row := sample_row 2 "B" "Bar" "orcid:2" "dog".

Definition sample : DataFrame :=
  mkFrame sample_columns
    [sample_row 0 "VBO:1" "Other" "orcid:0" "dog"; sample_A; sample_B].

(** A table in which the obsolete term has two rows. *)
Definition dup_A1 : Row := sample_row 0 "A" "Foo" "orcid:1" "dog".
Definition dup_A2 : Row := sample_row 1 "A" "Foo (old)" "orcid:1" "dog".
Definition dup_B : Row := sample_row 2 "B" "Bar" "orcid:2" "dog".

Definition dup_sample : DataFrame :=
  mkFrame sample_columns [dup_A1; dup_A2; dup_B].

(** A table with the two columns that [merge] reads and no other. *)
Definition bare_sample : DataFrame :=
  mkFrame ["vbo_id"; "term_label"]
    [row_of 0 [("vbo_id", Str "A"); ("term_label", Str "Foo")];
     row_of 1 [("vbo_id", Str "B"); ("term_label", Str "Bar")]].

(** ** Reading a result *)

(** The frame that the call [m] returns on the store [h], or how it ends. *)
Definition frame_of (m : M loc) (h : list DataFrame) : outcome DataFrame :=
  match m h with
  | (Ok l, h') =>
      match h' !! l with
      | Some out => Ok out
      | None => Dangling
      end
  | (Raise e, _) => Raise e
  | (Dangling, _) => Dangling
  end.

(** A frame as a table: for every row its index label and its cells in
    header order. *)
Definition table (df : DataFrame) : list (nat * list (option cell)) :=
  (λ r, (label r, (λ c, cells r !! c) <$> columns df)) <$> rows df.

(** ** Text columns

    The embedding keeps the cells of a frame and not the dtype of its
    columns.  One line of [merge] depends on the dtype:
    ["obsolete " + df_term_to_obsolete['term_label']] works on a text
    column and raises [TypeError] on a float64 column, which is what
    [pd.read_csv] makes of a column without any string.  A column that
    holds a [str] is a text column, and so is every selection of its
    rows. *)

Definition is_str (v : cell) : bool :=
  match v with
  | Str _ => true
  | NaN => false
  end.

(** Column [c] of the table holds at least one [str]. *)
Definition text_column (c : string) (df : DataFrame) : Prop :=
  Exists (λ r, is_str (cell_at c r) = true) (rows df).

#[global] Instance text_column_dec c df : Decision (text_column c df).
Proof. unfold text_column. apply _. Defined.

(** ** [merge] as a function of the table *)

(** What a call of [merge] comes to, read off the table alone: the two
    [KeyError]s of the columns that are read, the [IndexError] of an empty
    selection, or the concatenation of the three frames. *)
Definition merged (df : DataFrame) (term_to_obsolete term_to_merge_into : string)
    (issue : Z) : outcome DataFrame :=
  if decide ("vbo_id" ∈ columns df) then
    if decide ("term_label" ∈ columns df) then
      match matching term_to_merge_into df, matching term_to_obsolete df with
      | rb :: _, ra :: _ =>
          Ok (concat_frames
                [obsoletion_frame (select term_to_obsolete df)
                   term_to_merge_into (cell_at "term_label" rb) issue;
                 synonym_frame (select term_to_obsolete df)
                   term_to_obsolete term_to_merge_into
                   (cell_at "term_label" ra) issue;
                 select term_to_merge_into df])
      | _, _ => Raise IndexError
      end
    else Raise (KeyError "term_label")
  else Raise (KeyError "vbo_id").

(** ** The driver [obsolete_and_write]

    The driver makes two calls that leave the process: [pd.read_csv] on a
    URL and [DataFrame.to_csv] on a path.  What the network and the disk
    answer is a parameter of the run; the run keeps the list of the calls it
    made, with their arguments. *)

(** The tab character, [sep="\t"] of both calls. *)
Definition tab : string := String (Ascii.ascii_of_nat 9) EmptyString.

Inductive call : Type :=
  | Read_csv (url sep : string)
  | To_csv (frame : DataFrame) (path sep : string) (index : bool).

(** The outside of the process: the table that [pd.read_csv(url, sep=sep)]
    returns, [None] when that call raises, and whether [to_csv] can write
    the file at a path (when it cannot, that call raises). *)
Record Env : Type := mkEnv {
  fetch : string → string → option DataFrame;
  can_write : string → bool
}.

Inductive io_exn : Type :=
  | Read_error
  | Write_error
  | Frame_error (e : exn).

Inductive io_outcome (A : Type) : Type :=
  | Returned (a : A)
  | Failed (e : io_exn)
  | Unbound.
Arguments Returned {A} a.
Arguments Failed {A} e.
Arguments Unbound {A}.

(** The state of a run of the driver: the DataFrame objects and the calls
    made so far, oldest first. *)
Record World : Type := mkWorld {
  frames : list DataFrame;
  calls : list call
}.

Definition IO (A : Type) : Type := World → io_outcome A * World.

#[global] Instance IO_ret : MRet IO := λ A a w, (Returned a, w).

#[global] Instance IO_bind : MBind IO := λ A B k m w,
  match m w with
  | (Returned a, w') => k a w'
  | (Failed e, w') => (Failed e, w')
  | (Unbound, w') => (Unbound, w')
  end.

(** A frame operation inside the driver: it sees the objects only. *)
Definition lift {A} (m : M A) : IO A := λ w,
  match m (frames w) with
  | (Ok a, h) => (Returned a, mkWorld h (calls w))
  | (Raise e, h) => (Failed (Frame_error e), mkWorld h (calls w))
  | (Dangling, h) => (Unbound, mkWorld h (calls w))
  end.

(** [pd.read_csv(url, sep=sep)]: a new DataFrame with the table read. *)
Definition read_csv (env : Env) (url sep : string) : IO loc := λ w,
  match fetch env url sep with
  | Some df =>
      (Returned (length (frames w)),
       mkWorld (frames w ++ [df]) (calls w ++ [Read_csv url sep]))
  | None => (Failed Read_error, mkWorld (frames w) (calls w ++ [Read_csv url sep]))
  end.

(** [out.to_csv(path, sep=sep, index=index)]. *)
Definition to_csv (env : Env) (out : loc) (path sep : string) (index : bool)
    : IO unit := λ w,
  match frames w !! out with
  | Some frame =>
      let w' := mkWorld (frames w) (calls w ++ [To_csv frame path sep index]) in
      if can_write env path then (Returned tt, w') else (Failed Write_error, w')
  | None => (Unbound, w)
  end.

Definition obsolete_and_write (env : Env)
    (template_url term_to_obsolete term_to_merge_into : string) (issue : Z)
    (outfile : string) : IO unit :=
  (* df=pd.read_csv(template_url,sep="\t") *)
  df ← read_csv env template_url tab;
  (* out = merge(df, term_to_obsolete, term_to_merge_into,issue=issue) *)
  out ← lift (merge df term_to_obsolete term_to_merge_into issue);
  (* out.to_csv(outfile,sep="\t",index=False) *)
  to_csv env out outfile tab false.

(** The settings of the notebook. *)
Definition outfile : string := "dogbreeds_merged.tsv".

Definition template_url : string :=
  "https://docs.google.com/spreadsheets/d/e/2PACX-1vSuwLXikgq08frK7d8yFSdWTS8P1erx5bS_QiLdHhfKV4ulJlRrqkVaVhC7b3O6Z8ixrvJgoCBy8YLq/pub?gid=1655315858&single=true&output=tsv".

(** ** More sample data *)

(** An outside where the sheet of the notebook reads as [table] and every
    file can be written. *)
Definition sheet_env (table : DataFrame) : Env :=
  mkEnv (λ url sep, if decide (url = template_url ∧ sep = tab) then Some table
                    else None)
        (λ _, true).

(** The sample table without the row of the third term. *)
Definition sample_two : DataFrame := mkFrame sample_columns [sample_A; sample_B].




(** The frame that [merge] returns on the sample table. *)
Definition sample_merged : DataFrame :=
  match frame_of (merge 0 "A" "B" 123) [sample] with
  | Ok out => out
  | _ => sample
  end.

(** ** Running the store operations

    A store is read as [h ++ t]: the objects [h] that were there when the
    call began, then the objects [t] that the call has allocated. *)

Lemma lookup_new (h t : list DataFrame) i :
  (h ++ t) !! (length h + i) = t !! i.
Proof. rewrite lookup_app_r by lia. f_equal. lia. Qed.

Lemma insert_new (h t : list DataFrame) i df :
  <[length h + i := df]> (h ++ t) = h ++ <[i := df]> t.
Proof. rewrite insert_app_r_alt by lia. do 2 f_equal. lia. Qed.

Lemma get_frame_old h t l df :
  h !! l = Some df → get_frame l (h ++ t) = (Ok df, h ++ t).
Proof. intros Hl. unfold get_frame. by rewrite (lookup_app_l_Some _ _ _ _ Hl). Qed.

Lemma get_frame_new h t i df :
  t !! i = Some df → get_frame (length h + i) (h ++ t) = (Ok df, h ++ t).
Proof. intros Hi. unfold get_frame. by rewrite lookup_new, Hi. Qed.

Lemma put_frame_new h t i df df' :
  t !! i = Some df →
  put_frame (length h + i) df' (h ++ t) = (Ok tt, h ++ <[i := df']> t).
Proof. intros Hi. unfold put_frame. by rewrite lookup_new, Hi, insert_new. Qed.

Lemma new_frame_new h t df :
  new_frame df (h ++ t) = (Ok (length h + length t), h ++ (t ++ [df])).
Proof. unfold new_frame. by rewrite length_app, <-app_assoc. Qed.

Lemma bind_run {A B} (m : M A) (k : A → M B) h a h' :
  m h = (Ok a, h') → (m ≫= k) h = k a h'.
Proof. intros Hm. unfold mbind, M_bind. by rewrite Hm. Qed.

Lemma bind_raise {A B} (m : M A) (k : A → M B) h e h' :
  m h = (Raise e, h') → (m ≫= k) h = (Raise e, h').
Proof. intros Hm. unfold mbind, M_bind. by rewrite Hm. Qed.

Lemma cell_eqb_has_id x r :
  cell_eqb x (cell_at "vbo_id" r) = true ↔ has_id x r.
Proof.
  unfold cell_eqb, cell_at, has_id.
  destruct (cells r !! "vbo_id") as [[|s]|]; simpl; [done| |done].
  rewrite bool_decide_eq_true. split; congruence.
Qed.

Lemma mask_rows_series_eq x rs :
  mask_rows rs (series_eq (cell_at "vbo_id" <$> rs) x) = filter (has_id x) rs.
Proof.
  induction rs as [|r rs IH]; [done|].
  cbn [fmap list_fmap series_eq mask_rows]. fold (series_eq (cell_at "vbo_id" <$> rs) x).
  rewrite IH, filter_cons.
  pose proof (cell_eqb_has_id x r) as Hr.
  destruct (decide (has_id x r)) as [Hy|Hn].
  - by rewrite (proj2 Hr Hy).
  - destruct (cell_eqb x (cell_at "vbo_id" r)); [|done].
    destruct Hn. by apply Hr.
Qed.

Lemma values0_cons v vs (h : list DataFrame) : values0 (v :: vs) h = (Ok v, h).
Proof. reflexivity. Qed.

Lemma values0_nil (h : list DataFrame) : values0 [] h = (Raise IndexError, h).
Proof. reflexivity. Qed.

Lemma getitem_old h t l df c :
  h !! l = Some df → c ∈ columns df →
  getitem l c (h ++ t) = (Ok (cell_at c <$> rows df), h ++ t).
Proof.
  intros Hl Hc. unfold getitem.
  erewrite bind_run by (by apply get_frame_old).
  by rewrite decide_True.
Qed.

Lemma getitem_old_missing h t l df c :
  h !! l = Some df → c ∉ columns df →
  getitem l c (h ++ t) = (Raise (KeyError c), h ++ t).
Proof.
  intros Hl Hc. unfold getitem.
  erewrite bind_run by (by apply get_frame_old).
  by rewrite decide_False.
Qed.

Lemma getitem_new h t i d c :
  t !! i = Some d → c ∈ columns d →
  getitem (length h + i) c (h ++ t) = (Ok (cell_at c <$> rows d), h ++ t).
Proof.
  intros Hi Hc. unfold getitem.
  erewrite bind_run by (by apply get_frame_new).
  by rewrite decide_True.
Qed.

Lemma getitem_new_missing h t i d c :
  t !! i = Some d → c ∉ columns d →
  getitem (length h + i) c (h ++ t) = (Raise (KeyError c), h ++ t).
Proof.
  intros Hi Hc. unfold getitem.
  erewrite bind_run by (by apply get_frame_new).
  by rewrite decide_False.
Qed.

(** [df[df["vbo_id"] == x]] on the input table. *)
Lemma select_old h t l df x :
  h !! l = Some df →
  getitem_mask l (series_eq (cell_at "vbo_id" <$> rows df) x) (h ++ t)
  = (Ok (length h + length t), h ++ (t ++ [select x df])).
Proof.
  intros Hl. unfold getitem_mask.
  erewrite bind_run by (by apply get_frame_old).
  rewrite decide_True by (unfold series_eq; by rewrite !length_fmap).
  by rewrite new_frame_new, mask_rows_series_eq.
Qed.

Lemma copy_new h t i d :
  t !! i = Some d →
  copy (length h + i) (h ++ t) = (Ok (length h + length t), h ++ (t ++ [d])).
Proof.
  intros Hi. unfold copy.
  erewrite bind_run by (by apply get_frame_new).
  by rewrite new_frame_new.
Qed.

Lemma frame_columns_new h t i d :
  t !! i = Some d →
  frame_columns (length h + i) (h ++ t) = (Ok (columns d), h ++ t).
Proof.
  intros Hi. unfold frame_columns.
  by erewrite bind_run by (by apply get_frame_new).
Qed.

Lemma setitem_new h t i d c v :
  t !! i = Some d →
  setitem (length h + i) c v (h ++ t) = (Ok tt, h ++ <[i := assign c v d]> t).
Proof.
  intros Hi. unfold setitem.
  erewrite bind_run by (by apply get_frame_new).
  by eapply put_frame_new.
Qed.

Lemma setitem_series_new h t i d c vs :
  t !! i = Some d → length vs = length (rows d) →
  setitem_series (length h + i) c vs (h ++ t)
  = (Ok tt, h ++ <[i := assign_series c vs d]> t).
Proof.
  intros Hi Hlen. unfold setitem_series.
  erewrite bind_run by (by apply get_frame_new).
  rewrite decide_True by done. by eapply put_frame_new.
Qed.

Lemma concat3_new h t i j k d1 d2 d3 :
  t !! i = Some d1 → t !! j = Some d2 → t !! k = Some d3 →
  concat [length h + i; length h + j; length h + k] (h ++ t)
  = (Ok (length h + length t), h ++ (t ++ [concat_frames [d1; d2; d3]])).
Proof.
  intros Hi Hj Hk. unfold concat. cbn [get_frames].
  erewrite bind_run; [apply new_frame_new|].
  erewrite bind_run by (by apply get_frame_new).
  erewrite bind_run; [reflexivity|].
  erewrite bind_run by (by apply get_frame_new).
  erewrite bind_run; [reflexivity|].
  erewrite bind_run by (by apply get_frame_new).
  erewrite bind_run; reflexivity.
Qed.

Lemma blank_loop_new h t i d cs :
  t !! i = Some d →
  for_each cs (λ column,
    if decide (column ∉ list_of_columns_to_keep)
    then setitem (length h + i) column (Str "")
    else mret tt) (h ++ t)
  = (Ok tt, h ++ <[i := foldl blank_step d cs]> t).
Proof.
  revert t d. induction cs as [|c cs IH]; intros t d Hi.
  - simpl. by rewrite list_insert_id.
  - cbn [for_each foldl]. unfold blank_step at 2.
    destruct (decide (c ∉ list_of_columns_to_keep)).
    + erewrite bind_run by (by apply setitem_new).
      rewrite (IH _ (assign c (Str "") d))
        by (apply list_lookup_insert_eq; by eapply lookup_lt_Some).
      by rewrite list_insert_insert_eq.
    + erewrite bind_run by reflexivity. by apply IH.
Qed.

Lemma add_column_old c cs : c ∈ cs → add_column c cs = cs.
Proof. intros Hc. unfold add_column. by rewrite decide_True. Qed.

Lemma elem_of_add_column c c' cs : c ∈ add_column c' cs ↔ c = c' ∨ c ∈ cs.
Proof.
  unfold add_column. case_decide.
  - split; [tauto|]. by intros [->|?].
  - rewrite elem_of_app, list_elem_of_singleton. tauto.
Qed.

Lemma blank_loop_columns cs d :
  (∀ c, c ∈ cs → c ∈ columns d) →
  columns (foldl blank_step d cs) = columns d.
Proof.
  revert d. induction cs as [|c cs IH]; intros d Hcs; [done|].
  cbn [foldl].
  assert (columns (blank_step d c) = columns d) as Hstep.
  { unfold blank_step. case_decide; [|done]. simpl.
    apply add_column_old, Hcs. left. }
  rewrite IH, Hstep; [done|].
  intros c' Hc'. rewrite Hstep. apply Hcs. by right.
Qed.

Lemma blank_frame_columns d : columns (foldl blank_step d (columns d)) = columns d.
Proof. by apply blank_loop_columns. Qed.

Ltac run lem :=
  erewrite bind_run by (by eapply lem); cbn [length app].

(** The store when [merge] returns, for a table that has the two columns
    that [merge] reads and a row for either term. *)
Lemma merge_run h l df A B issue lblA lblB restA restB :
  h !! l = Some df → "vbo_id" ∈ columns df → "term_label" ∈ columns df →
  cell_at "term_label" <$> matching A df = lblA :: restA →
  cell_at "term_label" <$> matching B df = lblB :: restB →
  merge l A B issue h
  = (Ok (length h + 5),
     h ++ [select B df; select B df; select A df;
           obsoletion_frame (select A df) B lblB issue;
           synonym_frame (select A df) A B lblA issue;
           concat_frames
             [obsoletion_frame (select A df) B lblB issue;
              synonym_frame (select A df) A B lblA issue;
              select B df]]).
Proof.
  intros Hl Hid Hlabel HA HB. rewrite <-(app_nil_r h) at 1. unfold merge.
  run (getitem_old h). run (select_old h). run (copy_new h).
  run (getitem_old h). run (select_old h). run (copy_new h). run (copy_new h).
  run (getitem_new h). cbn [rows select]. rewrite HB. run values0_cons.
  run (getitem_new h). cbn [rows select]. rewrite HA. run values0_cons.
  run (frame_columns_new h).
  run (blank_loop_new h). cbn [list_insert].
  erewrite bind_run
    by (eapply (getitem_new h _ 3); [done | by rewrite blank_frame_columns]).
  erewrite bind_run
    by (eapply (setitem_series_new h _ 3); [done | by rewrite !length_fmap]).
  cbn [list_insert].
  do 7 (run (setitem_new h); cbn [list_insert]).
  do 6 (run (setitem_new h); cbn [list_insert]).
  by erewrite (concat3_new h _ 3 4 1) by done.
Qed.

Lemma merge_run_dangling h l A B issue :
  h !! l = None → merge l A B issue h = (Dangling, h).
Proof.
  intros Hl. unfold merge, getitem, get_frame, mbind, M_bind. by rewrite Hl.
Qed.

Lemma merge_run_no_id h l df A B issue :
  h !! l = Some df → "vbo_id" ∉ columns df →
  merge l A B issue h = (Raise (KeyError "vbo_id"), h).
Proof.
  intros Hl Hid. rewrite <-(app_nil_r h) at 1. unfold merge.
  erewrite bind_raise by (by eapply getitem_old_missing).
  by rewrite app_nil_r.
Qed.

Lemma merge_run_no_label h l df A B issue :
  h !! l = Some df → "vbo_id" ∈ columns df → "term_label" ∉ columns df →
  merge l A B issue h
  = (Raise (KeyError "term_label"),
     h ++ [select B df; select B df; select A df; select A df; select A df]).
Proof.
  intros Hl Hid Hlabel. rewrite <-(app_nil_r h) at 1. unfold merge.
  run (getitem_old h). run (select_old h). run (copy_new h).
  run (getitem_old h). run (select_old h). run (copy_new h). run (copy_new h).
  by erewrite bind_raise by (by eapply (getitem_new_missing h _ 1)).
Qed.

Lemma merge_run_no_replacement h l df A B issue :
  h !! l = Some df → "vbo_id" ∈ columns df → "term_label" ∈ columns df →
  matching B df = [] →
  merge l A B issue h
  = (Raise IndexError,
     h ++ [select B df; select B df; select A df; select A df; select A df]).
Proof.
  intros Hl Hid Hlabel HB. rewrite <-(app_nil_r h) at 1. unfold merge.
  run (getitem_old h). run (select_old h). run (copy_new h).
  run (getitem_old h). run (select_old h). run (copy_new h). run (copy_new h).
  run (getitem_new h). cbn [rows select]. rewrite HB.
  by erewrite bind_raise by apply values0_nil.
Qed.

Lemma merge_run_no_obsolete h l df A B issue :
  h !! l = Some df → "vbo_id" ∈ columns df → "term_label" ∈ columns df →
  matching B df ≠ [] → matching A df = [] →
  merge l A B issue h
  = (Raise IndexError,
     h ++ [select B df; select B df; select A df; select A df; select A df]).
Proof.
  intros Hl Hid Hlabel HB HA. rewrite <-(app_nil_r h) at 1. unfold merge.
  run (getitem_old h). run (select_old h). run (copy_new h).
  run (getitem_old h). run (select_old h). run (copy_new h). run (copy_new h).
  run (getitem_new h). cbn [rows select].
  destruct (matching B df) as [|rb rB]; [done|]. cbn [fmap list_fmap].
  run values0_cons. run (getitem_new h). cbn [rows select]. rewrite HA.
  by erewrite bind_raise by apply values0_nil.
Qed.

(** Whatever the call does, the store it leaves is the store it found
    followed by the objects it allocated. *)
Lemma merge_store h l A B issue :
  ∃ t, (merge l A B issue h).2 = h ++ t.
Proof.
  destruct (h !! l) as [df|] eqn:Hl.
  2: { exists []. by rewrite merge_run_dangling, app_nil_r. }
  destruct (decide ("vbo_id" ∈ columns df)) as [Hid|Hid].
  2: { exists []. by erewrite merge_run_no_id, app_nil_r. }
  destruct (decide ("term_label" ∈ columns df)) as [Hlabel|Hlabel].
  2: { eexists. by erewrite merge_run_no_label. }
  destruct (matching B df) as [|rb rB] eqn:HB.
  { eexists. by erewrite merge_run_no_replacement. }
  destruct (matching A df) as [|ra rA] eqn:HA.
  { eexists. by erewrite merge_run_no_obsolete by (done || by rewrite HB). }
  eexists. erewrite merge_run; [done..| |].
  - cbn [rows select]. by rewrite HA.
  - cbn [rows select]. by rewrite HB.
Qed.

(** ** The rows of the frames that [merge] builds *)

Lemma rows_blank_loop cs d :
  rows (foldl blank_step d cs) = (λ r, foldl blank_cell r cs) <$> rows d.
Proof.
  revert d. induction cs as [|c cs IH]; intros d; cbn [foldl].
  - by rewrite list_fmap_id.
  - rewrite IH. unfold blank_step, blank_cell.
    destruct (decide (c ∉ list_of_columns_to_keep)); cbn [rows assign].
    + by rewrite <-list_fmap_compose.
    + done.
Qed.

Lemma rows_obsoletion_frame d B lbl issue :
  rows (obsoletion_frame d B lbl issue)
  = obsoletion_row (columns d) B lbl issue <$> rows d.
Proof.
  unfold obsoletion_frame. cbn [rows assign assign_series].
  rewrite !zip_with_fmap_r, zip_with_diag.
  rewrite rows_blank_loop, <-!list_fmap_compose. done.
Qed.

Lemma rows_synonym_frame d A B lbl issue :
  rows (synonym_frame d A B lbl issue) = synonym_row A B lbl issue <$> rows d.
Proof.
  unfold synonym_frame. cbn [rows assign]. by rewrite <-!list_fmap_compose.
Qed.

Lemma concat_frames3 d1 d2 d3 :
  concat_frames [d1; d2; d3]
  = mkFrame (union_columns [d1; d2; d3])
      ((fill_row (union_columns [d1; d2; d3]) <$> rows d1)
       ++ (fill_row (union_columns [d1; d2; d3]) <$> rows d2)
       ++ (fill_row (union_columns [d1; d2; d3]) <$> rows d3)).
Proof. unfold concat_frames. cbn [mbind list_bind]. by rewrite app_nil_r. Qed.

(** *** Headers *)

Lemma elem_of_add_columns c cs acc :
  c ∈ foldl (λ acc' c', add_column c' acc') acc cs ↔ c ∈ acc ∨ c ∈ cs.
Proof.
  revert acc. induction cs as [|c' cs IH]; intros acc; cbn [foldl].
  - rewrite elem_of_nil. tauto.
  - rewrite IH, elem_of_add_column, elem_of_cons. tauto.
Qed.

Lemma elem_of_union_columns3 c d1 d2 d3 :
  c ∈ union_columns [d1; d2; d3]
  ↔ c ∈ columns d1 ∨ c ∈ columns d2 ∨ c ∈ columns d3.
Proof.
  unfold union_columns. cbn [foldl].
  rewrite !elem_of_add_columns, elem_of_nil. tauto.
Qed.

Lemma elem_of_obsoletion_columns c d B lbl issue :
  "term_label" ∈ columns d →
  c ∈ columns (obsoletion_frame d B lbl issue)
  ↔ c ∈ columns d ∨ c ∈ obsoletion_assigned.
Proof.
  intros Hlabel. unfold obsoletion_frame, obsoletion_assigned.
  cbn [columns assign assign_series].
  rewrite !elem_of_add_column, blank_frame_columns, !elem_of_cons, elem_of_nil.
  split; [|tauto]. intros [->|[->|[->|[->|[->|[->|[->|[->|?]]]]]]]]; tauto.
Qed.

Lemma elem_of_synonym_columns c d A B lbl issue :
  c ∈ columns (synonym_frame d A B lbl issue)
  ↔ c ∈ columns d ∨ c ∈ synonym_assigned.
Proof.
  unfold synonym_frame, synonym_assigned. cbn [columns assign].
  rewrite !elem_of_add_column, !elem_of_cons, elem_of_nil. tauto.
Qed.

(** *** Cells *)

Lemma label_blank_loop cs r : label (foldl blank_cell r cs) = label r.
Proof.
  revert r. induction cs as [|c cs IH]; intros r; cbn [foldl]; [done|].
  rewrite IH. unfold blank_cell. by case_decide.
Qed.

Lemma lookup_blank_loop cs r c :
  cells (foldl blank_cell r cs) !! c
  = if decide (c ∈ cs ∧ c ∉ list_of_columns_to_keep) then Some (Str "")
    else cells r !! c.
Proof.
  revert r. induction cs as [|c' cs IH]; intros r; cbn [foldl].
  - rewrite decide_False; [done|]. rewrite elem_of_nil. tauto.
  - rewrite IH. destruct (decide (c ∈ cs ∧ c ∉ list_of_columns_to_keep)) as [[??]|Hn].
    + rewrite decide_True; [done|]. split; [by right|done].
    + unfold blank_cell. destruct (decide (c = c')) as [<-|Hne].
      * destruct (decide (c ∉ list_of_columns_to_keep)) as [Hk|Hk].
        -- cbn [cells set_cell]. rewrite lookup_insert_eq.
           rewrite decide_True; [done|]. split; [by left|done].
        -- rewrite decide_False; tauto.
      * assert (cells (if decide (c' ∉ list_of_columns_to_keep)
                       then set_cell c' (Str "") r else r) !! c = cells r !! c) as ->.
        { case_decide; [|done]. cbn [cells set_cell]. by rewrite lookup_insert_ne. }
        rewrite decide_False; [done|]. rewrite elem_of_cons. tauto.
Qed.

Lemma lookup_fill_row cs r c :
  cells (fill_row cs r) !! c
  = match cells r !! c with
    | Some v => Some v
    | None => if decide (c ∈ cs) then Some NaN else None
    end.
Proof.
  unfold fill_row. cbn [cells].
  induction cs as [|c' cs IH]; cbn [foldr].
  - destruct (cells r !! c); [done|]. by rewrite decide_False by apply not_elem_of_nil.
  - set (m := foldr _ _ cs) in *.
    destruct (decide (c = c')) as [<-|Hne].
    + destruct (m !! c) as [v|] eqn:Hm.
      * rewrite Hm, IH. destruct (cells r !! c); [done|].
        case_decide; [|done]. rewrite decide_True; [done|by right].
      * rewrite lookup_insert_eq. rewrite IH in Hm.
        destruct (cells r !! c); [done|]. rewrite decide_True; [done|by left].
    + assert ((match m !! c' with Some _ => m | None => <[c' := NaN]> m end) !! c
              = m !! c) as ->.
      { destruct (m !! c'); [done|]. by rewrite lookup_insert_ne. }
      rewrite IH. destruct (cells r !! c); [done|].
      destruct (decide (c ∈ cs)).
      * rewrite decide_True; [done|by right].
      * rewrite decide_False; [done|]. rewrite elem_of_cons. tauto.
Qed.

Lemma lookup_fill_row_Some cs r c v :
  cells r !! c = Some v → cells (fill_row cs r) !! c = Some v.
Proof. intros Hc. by rewrite lookup_fill_row, Hc. Qed.

Lemma fill_row_id cs r :
  (∀ c, c ∈ cs → is_Some (cells r !! c)) → fill_row cs r = r.
Proof.
  intros Hcs. destruct r as [i m]. unfold fill_row. cbn [label cells] in *.
  f_equal. induction cs as [|c cs IH]; cbn [foldr]; [done|].
  rewrite IH by (intros c' Hc'; apply Hcs; by right).
  destruct (Hcs c) as [v ->]; [by left|done].
Qed.

(** ** What [merge] returns *)

Lemma returns_inj m h out out' : returns m h out → returns m h out' → out = out'.
Proof.
  intros (l1 & h1 & Hrun1 & Hout1) (l2 & h2 & Hrun2 & Hout2). congruence.
Qed.

Lemma returns_not_raises m h out e : returns m h out → ¬ raises m h e.
Proof. intros (l1 & h1 & Hrun1 & _) (h2 & Hrun2). congruence. Qed.

Lemma wf_frame_lookup df r c :
  wf_frame df → r ∈ rows df → c ∈ columns df ↔ is_Some (cells r !! c).
Proof.
  intros [_ Hdom] Hr. rewrite Forall_forall in Hdom.
  by rewrite <-elem_of_dom, (Hdom r Hr), elem_of_list_to_set.
Qed.

Lemma matching_head x df r rs :
  matching x df = r :: rs → r ∈ rows df ∧ has_id x r.
Proof.
  intros Hm. assert (r ∈ matching x df) as Hr by (rewrite Hm; left).
  apply list_elem_of_filter in Hr. tauto.
Qed.

Lemma matching_has_column x df r rs :
  wf_frame df → matching x df = r :: rs → "vbo_id" ∈ columns df.
Proof.
  intros Hwf Hm. destruct (matching_head _ _ _ _ Hm) as [Hr Hid].
  apply (wf_frame_lookup df r); [done..|]. by eexists.
Qed.

Lemma text_column_has_column c df :
  wf_frame df → text_column c df → c ∈ columns df.
Proof.
  intros Hwf (r & Hr & Hstr)%Exists_exists.
  apply (wf_frame_lookup df r); [done..|].
  unfold cell_at in Hstr. by destruct (cells r !! c).
Qed.

(** The frame that [merge] returns when both terms have rows: for every row
    of the obsolete term an obsoletion row, then for every such row a synonym
    row, then the rows of the replacement term; the two labels come from the
    first row of either term. *)
Lemma merge_returns h l df A B issue ra rA rb rB :
  h !! l = Some df → "vbo_id" ∈ columns df → "term_label" ∈ columns df →
  matching A df = ra :: rA → matching B df = rb :: rB →
  ∃ cs,
    (∀ c, c ∈ cs ↔
          c ∈ columns df ∨ c ∈ obsoletion_assigned ∨ c ∈ synonym_assigned) ∧
    returns (merge l A B issue) h
      (mkFrame cs
         ((fill_row cs
             ∘ obsoletion_row (columns df) B (cell_at "term_label" rb) issue
             <$> ra :: rA)
          ++ (fill_row cs ∘ synonym_row A B (cell_at "term_label" ra) issue
              <$> ra :: rA)
          ++ (fill_row cs <$> rb :: rB))).
Proof.
  intros Hl Hid Hlabel HA HB.
  set (lblA := cell_at "term_label" ra). set (lblB := cell_at "term_label" rb).
  set (o1 := obsoletion_frame (select A df) B lblB issue).
  set (o2 := synonym_frame (select A df) A B lblA issue).
  exists (union_columns [o1; o2; select B df]). split.
  - intros c. rewrite elem_of_union_columns3. unfold o1, o2.
    rewrite elem_of_obsoletion_columns, elem_of_synonym_columns by done.
    cbn [columns select]. tauto.
  - exists (length h + 5), (h ++ [select B df; select B df; select A df; o1; o2;
                                  concat_frames [o1; o2; select B df]]).
    split.
    + eapply merge_run; [done..| |]; cbn [rows select].
      * by rewrite HA.
      * by rewrite HB.
    + rewrite lookup_new. cbn [lookup list_lookup]. f_equal.
      rewrite concat_frames3. f_equal.
      generalize (union_columns [o1; o2; select B df]). intros cs. subst o1 o2.
      rewrite rows_obsoletion_frame, rows_synonym_frame. cbn [rows columns select].
      by rewrite HA, HB, !list_fmap_compose.
Qed.

Ltac cells_simpl :=
  cbn [cells label set_cell];
  repeat first [rewrite lookup_insert_eq | rewrite lookup_insert_ne by done].

Lemma lookup_blank_loop_kept cs r c :
  c ∈ list_of_columns_to_keep →
  cells (foldl blank_cell r cs) !! c = cells r !! c.
Proof. intros Hc. rewrite lookup_blank_loop, decide_False; tauto. Qed.

Lemma kept_term_label : "term_label" ∈ list_of_columns_to_keep.
Proof. compute_done. Qed.

Lemma kept_vbo_id : "vbo_id" ∈ list_of_columns_to_keep.
Proof. compute_done. Qed.

Lemma kept_contributor : "contributor" ∈ list_of_columns_to_keep.
Proof. compute_done. Qed.

Lemma contributor_not_assigned :
  "contributor" ∉ obsoletion_assigned ++ synonym_assigned.
Proof. compute_done. Qed.

Lemma obsoletion_row_label cs B lbl issue r :
  label (obsoletion_row cs B lbl issue r) = label r.
Proof. unfold obsoletion_row. cells_simpl. apply label_blank_loop. Qed.

Lemma obsoletion_row_vbo_id cs B lbl issue r :
  cells (obsoletion_row cs B lbl issue r) !! "vbo_id" = cells r !! "vbo_id".
Proof.
  unfold obsoletion_row. cells_simpl. apply lookup_blank_loop_kept, kept_vbo_id.
Qed.

Lemma obsoletion_row_contributor cs B lbl issue r :
  cells (obsoletion_row cs B lbl issue r) !! "contributor"
  = cells r !! "contributor".
Proof.
  unfold obsoletion_row. cells_simpl.
  apply lookup_blank_loop_kept, kept_contributor.
Qed.

Lemma obsoletion_row_term_label cs B lbl issue r :
  cells (obsoletion_row cs B lbl issue r) !! "term_label"
  = Some (str_radd "obsolete " (cell_at "term_label" r)).
Proof.
  unfold obsoletion_row. cells_simpl. unfold cell_at.
  by rewrite lookup_blank_loop_kept by apply kept_term_label.
Qed.

Lemma obsoletion_row_blank cs B lbl issue r c :
  c ∈ cs → c ∉ list_of_columns_to_keep → c ∉ obsoletion_assigned →
  cells (obsoletion_row cs B lbl issue r) !! c = Some (Str "").
Proof.
  intros Hc Hkeep Hassigned. unfold obsoletion_row. cbn [cells set_cell].
  unfold obsoletion_assigned in Hassigned.
  rewrite !not_elem_of_cons in Hassigned.
  destruct Hassigned as (? & ? & ? & ? & ? & ? & ? & _).
  assert (c ≠ "term_label") by (intros ->; apply Hkeep, kept_term_label).
  rewrite !lookup_insert_ne by done.
  rewrite lookup_blank_loop, decide_True; done.
Qed.

Lemma synonym_row_other A B lbl issue r c :
  c ∉ synonym_assigned →
  cells (synonym_row A B lbl issue r) !! c = cells r !! c.
Proof.
  intros Hassigned. unfold synonym_row. cbn [cells set_cell].
  unfold synonym_assigned in Hassigned.
  rewrite !not_elem_of_cons in Hassigned.
  destruct Hassigned as (? & ? & ? & ? & ? & ? & _).
  by rewrite !lookup_insert_ne by done.
Qed.

(** ** The claims, for a table with one row for either term *)

(** C1.  When exactly one row has the obsolete id and exactly one row has
    the replacement id, in a table whose label column is text, [merge]
    returns a frame of exactly three rows, in
    this order: the obsoletion row made of the obsolete term's row (it has
    the obsolete id and [obsolete] set), the synonym row made of the same row
    (it has the replacement id and names the obsolete id as its source), and
    the replacement term's row. *)
Theorem merge_three_rows h l df A B issue ra rb :
  h !! l = Some df → wf_frame df → text_column "term_label" df →
  matching A df = [ra] → matching B df = [rb] →
  ∃ out o1 o2 r,
    returns (merge l A B issue) h out ∧
    rows out = [o1; o2; r] ∧
    o1 = fill_row (columns out)
           (obsoletion_row (columns df) B (cell_at "term_label" rb) issue ra) ∧
    o2 = fill_row (columns out)
           (synonym_row A B (cell_at "term_label" ra) issue ra) ∧
    r = fill_row (columns out) rb ∧
    cells o1 !! "vbo_id" = Some (Str A) ∧
    cells o1 !! "obsolete" = Some (Str "true") ∧
    cells o2 !! "vbo_id" = Some (Str B) ∧
    cells o2 !! "source_for_merged_term" = Some (Str A) ∧
    (∀ c, c ∈ columns df → cells r !! c = cells rb !! c).
Proof.
  intros Hl Hwf Htext HA HB.
  pose proof (text_column_has_column _ _ Hwf Htext) as Hlabel.
  destruct (matching_head _ _ _ _ HA) as [Hra HidA].
  destruct (matching_head _ _ _ _ HB) as [Hrb HidB].
  destruct (merge_returns h l df A B issue ra [] rb [])
    as (cs & _ & Hret); [done|by eapply matching_has_column|done..|].
  eexists _, _, _, _. split; [exact Hret|]. do 4 (split; [reflexivity|]).
  cbn [columns]. repeat split.
  - apply lookup_fill_row_Some. by rewrite obsoletion_row_vbo_id.
  - apply lookup_fill_row_Some. unfold obsoletion_row. by cells_simpl.
  - apply lookup_fill_row_Some. unfold synonym_row. by cells_simpl.
  - apply lookup_fill_row_Some. unfold synonym_row. by cells_simpl.
  - intros c Hc.
    destruct (proj1 (wf_frame_lookup df rb c Hwf Hrb) Hc) as [v Hv].
    rewrite Hv. by apply lookup_fill_row_Some.
Qed.

Lemma merge_three_rows_witness :
  ∃ out o1 o2 r,
    returns (merge 0 "A" "B" 123) [sample] out ∧
    rows out = [o1; o2; r] ∧
    o1 = fill_row (columns out)
           (obsoletion_row (columns sample) "B"
              (cell_at "term_label" sample_B) 123 sample_A) ∧
    o2 = fill_row (columns out)
           (synonym_row "A" "B" (cell_at "term_label" sample_A) 123 sample_A) ∧
    r = fill_row (columns out) sample_B ∧
    cells o1 !! "vbo_id" = Some (Str "A") ∧
    cells o1 !! "obsolete" = Some (Str "true") ∧
    cells o2 !! "vbo_id" = Some (Str "B") ∧
    cells o2 !! "source_for_merged_term" = Some (Str "A") ∧
    (∀ c, c ∈ columns sample → cells r !! c = cells sample_B !! c).
Proof.
  apply (merge_three_rows [sample] 0 sample "A" "B" 123 sample_A sample_B).
  - reflexivity.
  - compute_done.
  - compute_done.
  - vm_compute. reflexivity.
  - vm_compute. reflexivity.
Defined.

(** C2.  Under the same precondition, with [L] the label of the obsolete
    term's row and [M] the label of the replacement term's row, the first
    returned row has the obsolete id, the label ["obsolete " + L], the
    obsoletion type ["owl:Class"], [obsolete] set to ["true"], an empty
    [contributors], the replacement id and label, the reason
    ["terms merged"] and the issue URL, which for issue 123 ends with
    [/issues/123]. *)
Theorem merge_obsoletion_row h l df A B issue ra rb L M :
  h !! l = Some df → wf_frame df →
  matching A df = [ra] → matching B df = [rb] →
  cells ra !! "term_label" = Some (Str L) →
  cells rb !! "term_label" = Some M →
  ∃ out o1,
    returns (merge l A B issue) h out ∧
    rows out !! 0 = Some o1 ∧
    cells o1 !! "vbo_id" = Some (Str A) ∧
    cells o1 !! "term_label" = Some (Str ("obsolete " +:+ L)) ∧
    cells o1 !! "obsoletion_type" = Some (Str "owl:Class") ∧
    cells o1 !! "obsolete" = Some (Str "true") ∧
    cells o1 !! "contributors" = Some (Str "") ∧
    cells o1 !! "replacement_term" = Some (Str B) ∧
    cells o1 !! "replacement_label" = Some M ∧
    cells o1 !! "obsolescence_reason" = Some (Str "terms merged") ∧
    cells o1 !! "GH_issue"
    = Some (Str ("https://github.com/monarch-initiative/vertebrate-breed-ontology/issues/"
                 +:+ pretty issue)) ∧
    (issue = 123%Z →
     cells o1 !! "GH_issue"
     = Some (Str "https://github.com/monarch-initiative/vertebrate-breed-ontology/issues/123")).
Proof.
  intros Hl Hwf HA HB HL HM.
  destruct (matching_head _ _ _ _ HA) as [Hra HidA].
  assert ("term_label" ∈ columns df) as Hlabel.
  { apply (wf_frame_lookup df ra); [done..|]. by eexists. }
  destruct (merge_returns h l df A B issue ra [] rb [])
    as (cs & _ & Hret); [done|by eapply matching_has_column|done..|].
  eexists _, _. split; [exact Hret|]. split; [reflexivity|].
  cbn [compose].
  assert (cell_at "term_label" rb = M) as -> by (unfold cell_at; by rewrite HM).
  repeat split; try intros ->; apply lookup_fill_row_Some.
  - by rewrite obsoletion_row_vbo_id.
  - rewrite obsoletion_row_term_label. unfold cell_at. by rewrite HL.
  - unfold obsoletion_row. by cells_simpl.
  - unfold obsoletion_row. by cells_simpl.
  - unfold obsoletion_row. by cells_simpl.
  - unfold obsoletion_row. by cells_simpl.
  - unfold obsoletion_row. by cells_simpl.
  - unfold obsoletion_row. by cells_simpl.
  - unfold obsoletion_row. by cells_simpl.
  - unfold obsoletion_row. by cells_simpl.
Qed.

Lemma merge_obsoletion_row_witness :
  ∃ out o1,
    returns (merge 0 "A" "B" 123) [sample] out ∧
    rows out !! 0 = Some o1 ∧
    cells o1 !! "vbo_id" = Some (Str "A") ∧
    cells o1 !! "term_label" = Some (Str ("obsolete " +:+ "Foo")) ∧
    cells o1 !! "obsoletion_type" = Some (Str "owl:Class") ∧
    cells o1 !! "obsolete" = Some (Str "true") ∧
    cells o1 !! "contributors" = Some (Str "") ∧
    cells o1 !! "replacement_term" = Some (Str "B") ∧
    cells o1 !! "replacement_label" = Some (Str "Bar") ∧
    cells o1 !! "obsolescence_reason" = Some (Str "terms merged") ∧
    cells o1 !! "GH_issue"
    = Some (Str ("https://github.com/monarch-initiative/vertebrate-breed-ontology/issues/"
                 +:+ pretty 123%Z)) ∧
    (123%Z = 123%Z →
     cells o1 !! "GH_issue"
     = Some (Str "https://github.com/monarch-initiative/vertebrate-breed-ontology/issues/123")).
Proof.
  apply (merge_obsoletion_row [sample] 0 sample "A" "B" 123 sample_A sample_B).
  - reflexivity.
  - compute_done.
  - vm_compute. reflexivity.
  - vm_compute. reflexivity.
  - vm_compute. reflexivity.
  - vm_compute. reflexivity.
Defined.

(** C3.  Under the same precondition the second returned row is the
    obsolete term's row with the replacement id in [vbo_id], an empty
    [term_label], the obsolete term's label in
    [synonym_label_from_merged_term], the obsolete id in
    [source_for_merged_term], an empty [synonym_type_most_common_name] and
    the issue URL of the first row in [GH_issue]; it keeps the index label
    and, in every other column of the table, the cell of the obsolete term's
    row. *)
Theorem merge_synonym_row h l df A B issue ra rb L :
  h !! l = Some df → wf_frame df → text_column "term_label" df →
  matching A df = [ra] → matching B df = [rb] →
  cells ra !! "term_label" = Some L →
  ∃ out o1 o2,
    returns (merge l A B issue) h out ∧
    rows out !! 0 = Some o1 ∧
    rows out !! 1 = Some o2 ∧
    label o2 = label ra ∧
    cells o2 !! "vbo_id" = Some (Str B) ∧
    cells o2 !! "term_label" = Some (Str "") ∧
    cells o2 !! "synonym_label_from_merged_term" = Some L ∧
    cells o2 !! "source_for_merged_term" = Some (Str A) ∧
    cells o2 !! "synonym_type_most_common_name" = Some (Str "") ∧
    cells o2 !! "GH_issue" = Some (Str (issue_url issue)) ∧
    cells o2 !! "GH_issue" = cells o1 !! "GH_issue" ∧
    (∀ c, c ∈ columns df → c ∉ synonym_assigned →
          cells o2 !! c = cells ra !! c).
Proof.
  intros Hl Hwf Htext HA HB HL.
  destruct (matching_head _ _ _ _ HA) as [Hra HidA].
  pose proof (text_column_has_column _ _ Hwf Htext) as Hlabel.
  destruct (merge_returns h l df A B issue ra [] rb [])
    as (cs & _ & Hret); [done|by eapply matching_has_column|done..|].
  eexists _, _, _. split; [exact Hret|]. do 2 (split; [reflexivity|]).
  cbn [compose].
  assert (cell_at "term_label" ra = L) as -> by (unfold cell_at; by rewrite HL).
  split; [done|].
  assert (cells (fill_row cs (synonym_row A B L issue ra)) !! "GH_issue"
          = Some (Str (issue_url issue))) as Hissue.
  { apply lookup_fill_row_Some. unfold synonym_row. by cells_simpl. }
  repeat split; try (apply lookup_fill_row_Some; unfold synonym_row; by cells_simpl).
  - rewrite Hissue. symmetry. apply lookup_fill_row_Some.
    unfold obsoletion_row. by cells_simpl.
  - intros c Hc Hassigned.
    destruct (proj1 (wf_frame_lookup df ra c Hwf Hra) Hc) as [v Hv].
    rewrite Hv. apply lookup_fill_row_Some. by rewrite synonym_row_other.
Qed.

Lemma merge_synonym_row_witness :
  ∃ out o1 o2,
    returns (merge 0 "A" "B" 123) [sample] out ∧
    rows out !! 0 = Some o1 ∧
    rows out !! 1 = Some o2 ∧
    label o2 = label sample_A ∧
    cells o2 !! "vbo_id" = Some (Str "B") ∧
    cells o2 !! "term_label" = Some (Str "") ∧
    cells o2 !! "synonym_label_from_merged_term" = Some (Str "Foo") ∧
    cells o2 !! "source_for_merged_term" = Some (Str "A") ∧
    cells o2 !! "synonym_type_most_common_name" = Some (Str "") ∧
    cells o2 !! "GH_issue" = Some (Str (issue_url 123)) ∧
    cells o2 !! "GH_issue" = cells o1 !! "GH_issue" ∧
    (∀ c, c ∈ columns sample → c ∉ synonym_assigned →
          cells o2 !! c = cells sample_A !! c).
Proof.
  apply (merge_synonym_row [sample] 0 sample "A" "B" 123 sample_A sample_B).
  - reflexivity.
  - compute_done.
  - compute_done.
  - vm_compute. reflexivity.
  - vm_compute. reflexivity.
  - vm_compute. reflexivity.
Defined.

(** C4.  Under the same precondition the first returned row is made by
    blanking, in the obsolete term's row, every column other than
    [term_label], [vbo_id] and [contributor], and assigning the obsoletion
    fields afterwards: [contributor] keeps the cell of the obsolete term's
    row, every column of the table outside the three kept and the seven
    assigned ones holds the empty string, and the assigned fields hold what
    was assigned, not the blank. *)
Theorem merge_blanks_other_columns h l df A B issue ra rb :
  h !! l = Some df → wf_frame df → text_column "term_label" df →
  matching A df = [ra] → matching B df = [rb] →
  ∃ out o1,
    returns (merge l A B issue) h out ∧
    rows out !! 0 = Some o1 ∧
    o1 = fill_row (columns out)
           (obsoletion_row (columns df) B (cell_at "term_label" rb) issue ra) ∧
    label o1 = label ra ∧
    cells o1 !! "contributor" = cells ra !! "contributor" ∧
    (∀ c, c ∈ columns df → c ∉ list_of_columns_to_keep →
          c ∉ obsoletion_assigned → cells o1 !! c = Some (Str "")) ∧
    cells o1 !! "obsoletion_type" = Some (Str "owl:Class") ∧
    cells o1 !! "obsolete" = Some (Str "true") ∧
    cells o1 !! "obsolescence_reason" = Some (Str "terms merged").
Proof.
  intros Hl Hwf Htext HA HB.
  pose proof (text_column_has_column _ _ Hwf Htext) as Hlabel.
  destruct (matching_head _ _ _ _ HA) as [Hra HidA].
  destruct (merge_returns h l df A B issue ra [] rb [])
    as (cs & Hcs & Hret); [done|by eapply matching_has_column|done..|].
  eexists _, _. split; [exact Hret|]. do 2 (split; [reflexivity|]).
  cbn [compose]. split; [apply obsoletion_row_label|].
  repeat split; try (apply lookup_fill_row_Some; unfold obsoletion_row; by cells_simpl).
  - rewrite lookup_fill_row, obsoletion_row_contributor.
    destruct (cells ra !! "contributor") as [v|] eqn:Hv; [done|].
    rewrite decide_False; [done|]. rewrite Hcs. intros [Hc|[Hc|Hc]].
    + apply (wf_frame_lookup df ra) in Hc; [|done..]. rewrite Hv in Hc.
      by destruct Hc.
    + apply contributor_not_assigned, elem_of_app. by left.
    + apply contributor_not_assigned, elem_of_app. by right.
  - intros c Hc Hkeep Hassigned. apply lookup_fill_row_Some.
    by apply obsoletion_row_blank.
Qed.

Lemma merge_blanks_other_columns_witness :
  ∃ out o1,
    returns (merge 0 "A" "B" 123) [sample] out ∧
    rows out !! 0 = Some o1 ∧
    o1 = fill_row (columns out)
           (obsoletion_row (columns sample) "B"
              (cell_at "term_label" sample_B) 123 sample_A) ∧
    label o1 = label sample_A ∧
    cells o1 !! "contributor" = cells sample_A !! "contributor" ∧
    (∀ c, c ∈ columns sample → c ∉ list_of_columns_to_keep →
          c ∉ obsoletion_assigned → cells o1 !! c = Some (Str "")) ∧
    cells o1 !! "obsoletion_type" = Some (Str "owl:Class") ∧
    cells o1 !! "obsolete" = Some (Str "true") ∧
    cells o1 !! "obsolescence_reason" = Some (Str "terms merged").
Proof.
  apply (merge_blanks_other_columns [sample] 0 sample "A" "B" 123
           sample_A sample_B).
  - reflexivity.
  - compute_done.
  - compute_done.
  - vm_compute. reflexivity.
  - vm_compute. reflexivity.
Defined.

Lemma assigned_expected c :
  c ∈ obsoletion_assigned ∨ c ∈ synonym_assigned → c ∈ expected_columns.
Proof.
  assert (obsoletion_assigned ⊆ expected_columns) as H1 by compute_done.
  assert (synonym_assigned ⊆ expected_columns) as H2 by compute_done.
  intros [Hc|Hc]; [by apply H1|by apply H2].
Qed.

(** C5.  Under the same precondition the third returned row is the
    replacement term's row of the table: same index label, and the same cell
    in every column of the table.  On a table that has every expected
    column the two rows are equal and the returned frame has the header of
    the table, as a set. *)
Theorem merge_replacement_row h l df A B issue ra rb :
  h !! l = Some df → wf_frame df → text_column "term_label" df →
  matching A df = [ra] → matching B df = [rb] →
  ∃ out r,
    returns (merge l A B issue) h out ∧
    rows out !! 2 = Some r ∧
    rb ∈ rows df ∧
    label r = label rb ∧
    (∀ c, c ∈ columns df → cells r !! c = cells rb !! c) ∧
    (expected_columns ⊆ columns df →
     r = rb ∧ ∀ c, c ∈ columns out ↔ c ∈ columns df).
Proof.
  intros Hl Hwf Htext HA HB.
  pose proof (text_column_has_column _ _ Hwf Htext) as Hlabel.
  destruct (matching_head _ _ _ _ HB) as [Hrb HidB].
  destruct (merge_returns h l df A B issue ra [] rb [])
    as (cs & Hcs & Hret); [done|by eapply matching_has_column|done..|].
  eexists _, _. split; [exact Hret|]. split; [reflexivity|].
  split; [done|]. split; [done|]. split.
  - intros c Hc.
    destruct (proj1 (wf_frame_lookup df rb c Hwf Hrb) Hc) as [v Hv].
    rewrite Hv. by apply lookup_fill_row_Some.
  - intros Hexp.
    assert (∀ c, c ∈ cs ↔ c ∈ columns df) as Hsame.
    { intros c. rewrite Hcs. split; [|tauto].
      intros [Hc|Hc]; [done|]. by apply Hexp, assigned_expected. }
    split; [|exact Hsame].
    apply fill_row_id. intros c Hc.
    apply (wf_frame_lookup df rb); [done..|]. by apply Hsame.
Qed.

Lemma merge_replacement_row_witness :
  ∃ out r,
    returns (merge 0 "A" "B" 123) [sample] out ∧
    rows out !! 2 = Some r ∧
    sample_B ∈ rows sample ∧
    label r = label sample_B ∧
    (∀ c, c ∈ columns sample → cells r !! c = cells sample_B !! c) ∧
    (expected_columns ⊆ columns sample →
     r = sample_B ∧ ∀ c, c ∈ columns out ↔ c ∈ columns sample).
Proof.
  apply (merge_replacement_row [sample] 0 sample "A" "B" 123 sample_A sample_B).
  - reflexivity.
  - compute_done.
  - compute_done.
  - vm_compute. reflexivity.
  - vm_compute. reflexivity.
Defined.

(** ** A term with several rows *)

(** C6, as stated, fails: on a table with two rows of the obsolete term the
    call does not return three rows. *)
Lemma merge_duplicates_counterexample :
  wf_frame dup_sample ∧
  matching "A" dup_sample = [dup_A1; dup_A2] ∧
  matching "B" dup_sample = [dup_B] ∧
  ¬ ∃ out, returns (merge 0 "A" "B" 123) [dup_sample] out
           ∧ length (rows out) = 3.
Proof.
  assert (matching "A" dup_sample = [dup_A1; dup_A2]) as HA by compute_done.
  assert (matching "B" dup_sample = [dup_B]) as HB by compute_done.
  split; [compute_done|]. do 2 (split; [done|]).
  intros (out & Hret & Hlen).
  destruct (merge_returns [dup_sample] 0 dup_sample "A" "B" 123
              dup_A1 [dup_A2] dup_B [])
    as (cs & _ & Hret'); [done|compute_done|compute_done|done..|].
  rewrite (returns_inj _ _ _ _ Hret Hret') in Hlen. discriminate Hlen.
Qed.

(** C6, amended.  When the obsolete id has [m ≥ 1] rows and the replacement
    id has [n ≥ 1] rows, in a table whose label column is text, [merge]
    returns [2m + n] rows: an obsoletion row
    for every row of the obsolete term, in table order, then a synonym row
    for every row of the obsolete term, then every row of the replacement
    term.  Only the two labels come from the first rows: every obsoletion
    row gets the label of the first row of the replacement term, every
    synonym row the label of the first row of the obsolete term. *)
Theorem merge_all_matches h l df A B issue ra rA rb rB :
  h !! l = Some df → wf_frame df → text_column "term_label" df →
  matching A df = ra :: rA → matching B df = rb :: rB →
  ∃ out,
    returns (merge l A B issue) h out ∧
    rows out
    = (fill_row (columns out)
         ∘ obsoletion_row (columns df) B (cell_at "term_label" rb) issue
         <$> ra :: rA)
      ++ (fill_row (columns out)
            ∘ synonym_row A B (cell_at "term_label" ra) issue
            <$> ra :: rA)
      ++ (fill_row (columns out) <$> rb :: rB) ∧
    length (rows out) = 2 * length (matching A df) + length (matching B df).
Proof.
  intros Hl Hwf Htext HA HB.
  pose proof (text_column_has_column _ _ Hwf Htext) as Hlabel.
  destruct (merge_returns h l df A B issue ra rA rb rB)
    as (cs & _ & Hret); [done|by eapply matching_has_column|done..|].
  eexists. split; [exact Hret|]. split; [done|].
  cbn [rows]. rewrite HA, HB, !length_app, !length_fmap. lia.
Qed.

Lemma merge_all_matches_witness :
  ∃ out,
    returns (merge 0 "A" "B" 123) [dup_sample] out ∧
    rows out
    = (fill_row (columns out)
         ∘ obsoletion_row (columns dup_sample) "B"
             (cell_at "term_label" dup_B) 123
         <$> [dup_A1; dup_A2])
      ++ (fill_row (columns out)
            ∘ synonym_row "A" "B" (cell_at "term_label" dup_A1) 123
            <$> [dup_A1; dup_A2])
      ++ (fill_row (columns out) <$> [dup_B]) ∧
    length (rows out)
    = 2 * length (matching "A" dup_sample) + length (matching "B" dup_sample).
Proof.
  apply (merge_all_matches [dup_sample] 0 dup_sample "A" "B" 123
           dup_A1 [dup_A2] dup_B []).
  - reflexivity.
  - compute_done.
  - compute_done.
  - vm_compute. reflexivity.
  - vm_compute. reflexivity.
Defined.

(** ** Failing calls *)

(** C7.  When the obsolete id or the replacement id has no row in the table,
    [merge] returns nothing; on a table that has the [vbo_id] and
    [term_label] columns it ends with the [IndexError] of [.values[0]] on an
    empty selection. *)
Theorem merge_missing_id h l df A B issue :
  h !! l = Some df →
  matching A df = [] ∨ matching B df = [] →
  (∀ out, ¬ returns (merge l A B issue) h out) ∧
  ("vbo_id" ∈ columns df → "term_label" ∈ columns df →
   raises (merge l A B issue) h IndexError).
Proof.
  intros Hl Hmissing.
  assert ("vbo_id" ∈ columns df → "term_label" ∈ columns df →
          raises (merge l A B issue) h IndexError) as Hraise.
  { intros Hid Hlabel. destruct (matching B df) as [|rb rB] eqn:HB.
    - eexists. by apply merge_run_no_replacement.
    - destruct Hmissing as [HA|?]; [|done].
      eexists. apply merge_run_no_obsolete; [done..|by rewrite HB|done]. }
  split; [|done]. intros out (l' & h' & Hrun & _).
  destruct (decide ("vbo_id" ∈ columns df)) as [Hid|Hid].
  2: { by rewrite (merge_run_no_id _ _ _ _ _ _ Hl Hid) in Hrun. }
  destruct (decide ("term_label" ∈ columns df)) as [Hlabel|Hlabel].
  2: { by rewrite (merge_run_no_label _ _ _ _ _ _ Hl Hid Hlabel) in Hrun. }
  destruct (Hraise Hid Hlabel) as [h'' Hrun']. congruence.
Qed.

Lemma merge_missing_id_witness :
  (∀ out, ¬ returns (merge 0 "VBO:404" "B" 123) [sample] out) ∧
  ("vbo_id" ∈ columns sample → "term_label" ∈ columns sample →
   raises (merge 0 "VBO:404" "B" 123) [sample] IndexError).
Proof.
  apply (merge_missing_id [sample] 0 sample "VBO:404" "B" 123).
  - reflexivity.
  - left. vm_compute. reflexivity.
Defined.

(** C9, as stated, fails: a table without eleven of the expected columns
    is merged without any key error. *)
Lemma merge_missing_columns_counterexample :
  wf_frame bare_sample ∧
  ("contributor" ∉ columns bare_sample) ∧
  ("GH_issue" ∉ columns bare_sample) ∧
  (∃ out, returns (merge 0 "A" "B" 123) [bare_sample] out) ∧
  ¬ ∃ key, raises (merge 0 "A" "B" 123) [bare_sample] (KeyError key).
Proof.
  destruct (merge_returns [bare_sample] 0 bare_sample "A" "B" 123
              (row_of 0 [("vbo_id", Str "A"); ("term_label", Str "Foo")]) []
              (row_of 1 [("vbo_id", Str "B"); ("term_label", Str "Bar")]) [])
    as (cs & _ & Hret); [done|compute_done|compute_done|compute_done..|].
  split; [compute_done|]. do 2 (split; [compute_done|]).
  split; [by eexists|].
  intros [key Hraise]. by eapply returns_not_raises.
Qed.

(** C9, amended.  [merge] ends with a [KeyError] exactly when the table has
    no [vbo_id] column, or has it and has no [term_label] column; the key
    of the error is the missing column.  On a table with these two columns
    no [KeyError] is raised, whatever other columns are absent. *)
Theorem merge_key_error h l df A B issue :
  h !! l = Some df →
  ("vbo_id" ∉ columns df →
   raises (merge l A B issue) h (KeyError "vbo_id")) ∧
  ("vbo_id" ∈ columns df → "term_label" ∉ columns df →
   raises (merge l A B issue) h (KeyError "term_label")) ∧
  ("vbo_id" ∈ columns df → "term_label" ∈ columns df →
   ∀ key, ¬ raises (merge l A B issue) h (KeyError key)).
Proof.
  intros Hl. split; [|split].
  - intros Hid. eexists. by eapply merge_run_no_id.
  - intros Hid Hlabel. eexists. by eapply merge_run_no_label.
  - intros Hid Hlabel key [h' Hrun].
    destruct (matching B df) as [|rb rB] eqn:HB.
    { by rewrite (merge_run_no_replacement _ _ _ _ _ _ Hl Hid Hlabel HB) in Hrun. }
    destruct (matching A df) as [|ra rA] eqn:HA.
    { rewrite (merge_run_no_obsolete _ _ _ _ _ _ Hl Hid Hlabel) in Hrun;
        [done|by rewrite HB|done]. }
    destruct (merge_returns h l df A B issue ra rA rb rB)
      as (cs & _ & l' & h'' & Hrun' & _); [done..|]. congruence.
Qed.

Lemma merge_key_error_witness :
  ("vbo_id" ∉ columns bare_sample →
   raises (merge 0 "A" "B" 123) [bare_sample] (KeyError "vbo_id")) ∧
  ("vbo_id" ∈ columns bare_sample → "term_label" ∉ columns bare_sample →
   raises (merge 0 "A" "B" 123) [bare_sample] (KeyError "term_label")) ∧
  ("vbo_id" ∈ columns bare_sample → "term_label" ∈ columns bare_sample →
   ∀ key, ¬ raises (merge 0 "A" "B" 123) [bare_sample] (KeyError key)).
Proof.
  apply (merge_key_error [bare_sample] 0 bare_sample "A" "B" 123).
  reflexivity.
Defined.

(** ** The store after the call *)

(** C10.  [merge] never changes its input table: every object that the
    store holds when the call begins, the input table among them, is the
    same object when the call is over, whether it returned or raised; the
    call only adds objects to the store. *)
Theorem merge_input_unchanged h l A B issue l0 df0 :
  h !! l0 = Some df0 →
  (merge l A B issue h).2 !! l0 = Some df0 ∧
  ∃ t, (merge l A B issue h).2 = h ++ t.
Proof.
  intros Hl0. destruct (merge_store h l A B issue) as [t Ht].
  split; [|by exists t]. rewrite Ht. by apply lookup_app_l_Some.
Qed.

Lemma merge_input_unchanged_witness :
  (merge 0 "A" "B" 123 [sample]).2 !! 0 = Some sample ∧
  ∃ t, (merge 0 "A" "B" 123 [sample]).2 = [sample] ++ t.
Proof.
  apply (merge_input_unchanged [sample] 0 "A" "B" 123 0 sample).
  reflexivity.
Defined.

(** ** Merging twice *)

Lemma merge_returns_inv h l df A B issue out :
  h !! l = Some df → returns (merge l A B issue) h out →
  "vbo_id" ∈ columns df ∧ "term_label" ∈ columns df
  ∧ matching A df ≠ [] ∧ matching B df ≠ [].
Proof.
  intros Hl (l' & h' & Hrun & _).
  destruct (decide ("vbo_id" ∈ columns df)) as [Hid|Hid].
  2: { by rewrite (merge_run_no_id _ _ _ _ _ _ Hl Hid) in Hrun. }
  destruct (decide ("term_label" ∈ columns df)) as [Hlabel|Hlabel].
  2: { by rewrite (merge_run_no_label _ _ _ _ _ _ Hl Hid Hlabel) in Hrun. }
  destruct (matching B df) as [|rb rB] eqn:HB.
  { by rewrite (merge_run_no_replacement _ _ _ _ _ _ Hl Hid Hlabel HB) in Hrun. }
  destruct (matching A df) as [|ra rA] eqn:HA; [|done].
  rewrite (merge_run_no_obsolete _ _ _ _ _ _ Hl Hid Hlabel) in Hrun;
    [done|by rewrite HB|done].
Qed.

Lemma has_id_fill_row x cs r : has_id x (fill_row cs r) ↔ has_id x r.
Proof.
  unfold has_id. rewrite lookup_fill_row.
  destruct (cells r !! "vbo_id"); [done|]. by case_decide.
Qed.

Lemma has_id_obsoletion_row x cs B lbl issue r :
  has_id x (obsoletion_row cs B lbl issue r) ↔ has_id x r.
Proof. unfold has_id. by rewrite obsoletion_row_vbo_id. Qed.

Lemma has_id_synonym_row A B lbl issue r : has_id B (synonym_row A B lbl issue r).
Proof. unfold has_id, synonym_row. by cells_simpl. Qed.

Lemma Forall_matching x df : Forall (has_id x) (matching x df).
Proof.
  apply Forall_forall. intros r Hr. by apply list_elem_of_filter in Hr as [? _].
Qed.

Lemma length_filter_Forall (P : Row → Prop) `{!∀ r, Decision (P r)} rs :
  Forall P rs → length (filter P rs) = length rs.
Proof.
  induction 1 as [|r rs Hr _ IH]; [done|].
  rewrite filter_cons, decide_True by done. cbn [length]. by rewrite IH.
Qed.

(** Merging the returned frame again, with the same ids, returns a frame
    with more rows: no frame that [merge] returns is a fixed point. *)
Lemma remerge_grows h l df A B issue out h2 l2 :
  h !! l = Some df → returns (merge l A B issue) h out →
  h2 !! l2 = Some out →
  ∃ out2, returns (merge l2 A B issue) h2 out2
          ∧ (length (rows out) < length (rows out2))%nat.
Proof.
  intros Hl Hret Hl2.
  destruct (merge_returns_inv _ _ _ _ _ _ _ Hl Hret) as (Hid & Hlabel & HA & HB).
  destruct (matching A df) as [|ra rA] eqn:HmA; [done|].
  destruct (matching B df) as [|rb rB] eqn:HmB; [done|].
  destruct (merge_returns h l df A B issue ra rA rb rB)
    as (cs & Hcs & Hret'); [done..|].
  rewrite (returns_inj _ _ _ _ Hret Hret') in Hl2 |- *. clear Hret Hret' out.
  set (o1s := fill_row cs ∘ obsoletion_row _ _ _ _ <$> ra :: rA) in *.
  set (o2s := fill_row cs ∘ synonym_row _ _ _ _ <$> ra :: rA) in *.
  set (rs := fill_row cs <$> rb :: rB) in *.
  set (out := mkFrame cs (o1s ++ o2s ++ rs)) in *.
  assert (Forall (has_id A) o1s) as Ho1.
  { apply Forall_fmap. rewrite <-HmA.
    eapply Forall_impl; [apply Forall_matching|]. intros r Hr. cbn [compose].
    by apply has_id_fill_row, has_id_obsoletion_row. }
  assert (Forall (has_id B) o2s) as Ho2.
  { apply Forall_fmap, Forall_forall. intros r _. cbn [compose].
    apply has_id_fill_row, has_id_synonym_row. }
  assert (Forall (has_id B) rs) as Hrs.
  { apply Forall_fmap. rewrite <-HmB.
    eapply Forall_impl; [apply Forall_matching|]. intros r Hr.
    by apply has_id_fill_row. }
  assert (length o1s = S (length rA)) as Hn1 by (unfold o1s; by rewrite length_fmap).
  assert (length o2s = S (length rA)) as Hn2 by (unfold o2s; by rewrite length_fmap).
  assert (length rs = S (length rB)) as Hn3 by (unfold rs; by rewrite length_fmap).
  assert (length o1s ≤ length (matching A out))%nat as HlenA.
  { unfold matching, out. cbn [rows].
    rewrite filter_app, length_app.
    rewrite (length_filter_Forall (has_id A) o1s Ho1). lia. }
  assert (length o2s + length rs ≤ length (matching B out))%nat as HlenB.
  { unfold matching, out. cbn [rows].
    rewrite !filter_app, !length_app.
    rewrite (length_filter_Forall (has_id B) o2s Ho2).
    rewrite (length_filter_Forall (has_id B) rs Hrs). lia. }
  destruct (matching A out) as [|ra' rA'] eqn:HmA';
    [cbn [length] in HlenA; lia|].
  destruct (matching B out) as [|rb' rB'] eqn:HmB';
    [cbn [length] in HlenB; lia|].
  destruct (merge_returns h2 l2 out A B issue ra' rA' rb' rB')
    as (cs2 & _ & Hret2); [done| | |done..|].
  { apply Hcs. by left. }
  { apply Hcs. by left. }
  eexists. split; [exact Hret2|].
  unfold out. cbn [rows]. rewrite !length_app, !length_fmap.
  cbn [length] in *. lia.
Qed.

(** C8.  [merge] is not idempotent: there is a table on which [merge]
    returns three rows and on which merging these rows again, with the same
    ids and issue, returns a different frame. *)
Theorem merge_not_idempotent :
  ∃ df A B issue out out2,
    returns (merge 0 A B issue) [df] out ∧
    length (rows out) = 3 ∧
    returns (merge 0 A B issue) [out] out2 ∧
    out2 ≠ out.
Proof.
  exists sample, "A", "B", 123%Z.
  destruct (merge_returns [sample] 0 sample "A" "B" 123 sample_A [] sample_B [])
    as (cs & _ & Hret); [done|compute_done|compute_done|compute_done..|].
  match type of Hret with returns _ _ ?d => set (out := d) in * end.
  destruct (remerge_grows [sample] 0 sample "A" "B" 123 out [out] 0)
    as (out2 & Hret2 & Hlen); [done..|].
  exists out, out2. split; [done|]. split; [done|]. split; [done|].
  intros ->. lia.
Qed.

(** ** The frame that [merge] returns is rectangular *)

Lemma NoDup_add_columns cs acc :
  NoDup acc → NoDup (foldl (λ acc' c', add_column c' acc') acc cs).
Proof.
  revert acc. induction cs as [|c cs IH]; intros acc Hacc; [done|].
  cbn [foldl]. apply IH. unfold add_column. case_decide; [done|].
  apply NoDup_app. split; [done|]. split; [|apply NoDup_singleton].
  intros c' Hc' ->%list_elem_of_singleton. done.
Qed.

Lemma NoDup_union_columns dfs : NoDup (union_columns dfs).
Proof.
  unfold union_columns. generalize (NoDup_nil_2 (A := string)).
  generalize (@nil string). induction dfs as [|d dfs IH]; intros acc Hacc; [done|].
  cbn [foldl]. by apply IH, NoDup_add_columns.
Qed.

Lemma dom_fill_row cs r :
  (∀ c, is_Some (cells r !! c) → c ∈ cs) →
  dom (cells (fill_row cs r)) = list_to_set cs.
Proof.
  intros Hsub. apply set_eq. intros c.
  rewrite elem_of_dom, elem_of_list_to_set, lookup_fill_row.
  destruct (cells r !! c) as [v|] eqn:Hc.
  - split; [|by eexists]. intros _. apply Hsub. by rewrite Hc.
  - case_decide; [by split; [|eexists]|]. split; [by intros [? ?]|done].
Qed.

Lemma obsoletion_row_is_Some cs B lbl issue r c :
  is_Some (cells (obsoletion_row cs B lbl issue r) !! c) →
  c = "term_label" ∨ c ∈ obsoletion_assigned ∨ c ∈ cs ∨ is_Some (cells r !! c).
Proof.
  unfold obsoletion_row, obsoletion_assigned. cbn [cells set_cell].
  rewrite !lookup_insert_is_Some, lookup_blank_loop, !elem_of_cons.
  case_decide; intuition auto.
Qed.

Lemma synonym_row_is_Some A B lbl issue r c :
  is_Some (cells (synonym_row A B lbl issue r) !! c) →
  c ∈ synonym_assigned ∨ is_Some (cells r !! c).
Proof.
  unfold synonym_row, synonym_assigned. cbn [cells set_cell].
  rewrite !lookup_insert_is_Some, !elem_of_cons. intuition auto.
Qed.

(** On a rectangular table, the frame that [merge] returns is rectangular. *)
Lemma merge_returns_wf h l df A B issue out :
  h !! l = Some df → wf_frame df → returns (merge l A B issue) h out →
  wf_frame out.
Proof.
  intros Hl Hwf Hret.
  destruct (merge_returns_inv _ _ _ _ _ _ _ Hl Hret) as (Hid & Hlabel & HA & HB).
  destruct (matching A df) as [|ra rA] eqn:HmA; [done|].
  destruct (matching B df) as [|rb rB] eqn:HmB; [done|].
  pose proof (merge_run h l df A B issue (cell_at "term_label" ra)
                (cell_at "term_label" rb) (cell_at "term_label" <$> rA)
                (cell_at "term_label" <$> rB) Hl Hid Hlabel) as Hrun.
  rewrite HmA, HmB in Hrun. specialize (Hrun eq_refl eq_refl).
  destruct (merge_returns h l df A B issue ra rA rb rB)
    as (cs & Hcs & Hret'); [done..|].
  pose proof (returns_inj _ _ _ _ Hret Hret') as ->.
  assert (NoDup cs) as Hnodup.
  { destruct Hret' as (l' & h' & Hrun' & Hout). rewrite Hrun in Hrun'.
    injection Hrun' as <- <-. rewrite lookup_new in Hout. cbn in Hout.
    injection Hout as Hcols _. rewrite <-Hcols. apply NoDup_union_columns. }
  split; [done|]. cbn [rows columns].
  assert (∀ r c, r ∈ rows df → is_Some (cells r !! c) → c ∈ cs) as Hin.
  { intros r c Hr Hc. apply Hcs. left. by apply (wf_frame_lookup df r). }
  assert (∀ r, r ∈ ra :: rA → r ∈ rows df) as HinA.
  { intros r Hr. rewrite <-HmA in Hr. by apply list_elem_of_filter in Hr as [_ ?]. }
  assert (∀ r, r ∈ rb :: rB → r ∈ rows df) as HinB.
  { intros r Hr. rewrite <-HmB in Hr. by apply list_elem_of_filter in Hr as [_ ?]. }
  rewrite !Forall_app, !Forall_fmap. repeat split.
  - apply Forall_forall. intros r Hr. cbn [compose]. apply dom_fill_row.
    intros c [->|[Hc|[Hc|Hc]]]%obsoletion_row_is_Some.
    + apply Hcs. by left.
    + apply Hcs. tauto.
    + apply Hcs. by left.
    + apply (Hin r); [by apply HinA|done].
  - apply Forall_forall. intros r Hr. cbn [compose]. apply dom_fill_row.
    intros c [Hc|Hc]%synonym_row_is_Some.
    + apply Hcs. tauto.
    + apply (Hin r); [by apply HinA|done].
  - apply Forall_forall. intros r Hr. apply dom_fill_row.
    intros c Hc. apply (Hin r); [by apply HinB|done].
Qed.

(** ** Runs on the sample tables *)

Example merge_bare_sample :
  frame_of (merge 0 "A" "B" 123) [bare_sample]
  = Ok (mkFrame
          ["vbo_id"; "term_label"; "obsoletion_type"; "obsolete";
           "contributors"; "replacement_term"; "replacement_label";
           "obsolescence_reason"; "GH_issue";
           "synonym_label_from_merged_term"; "source_for_merged_term";
           "synonym_type_most_common_name"]
          [row_of 0
             [("vbo_id", Str "A"); ("term_label", Str "obsolete Foo");
              ("obsoletion_type", Str "owl:Class"); ("obsolete", Str "true");
              ("contributors", Str ""); ("replacement_term", Str "B");
              ("replacement_label", Str "Bar");
              ("obsolescence_reason", Str "terms merged");
              ("GH_issue", Str "https://github.com/monarch-initiative/vertebrate-breed-ontology/issues/123");
              ("synonym_label_from_merged_term", NaN);
              ("source_for_merged_term", NaN);
              ("synonym_type_most_common_name", NaN)];
           row_of 0
             [("vbo_id", Str "B"); ("term_label", Str "");
              ("obsoletion_type", NaN); ("obsolete", NaN);
              ("contributors", NaN); ("replacement_term", NaN);
              ("replacement_label", NaN); ("obsolescence_reason", NaN);
              ("GH_issue", Str "https://github.com/monarch-initiative/vertebrate-breed-ontology/issues/123");
              ("synonym_label_from_merged_term", Str "Foo");
              ("source_for_merged_term", Str "A");
              ("synonym_type_most_common_name", Str "")];
           row_of 1
             [("vbo_id", Str "B"); ("term_label", Str "Bar");
              ("obsoletion_type", NaN); ("obsolete", NaN);
              ("contributors", NaN); ("replacement_term", NaN);
              ("replacement_label", NaN); ("obsolescence_reason", NaN);
              ("GH_issue", NaN); ("synonym_label_from_merged_term", NaN);
              ("source_for_merged_term", NaN);
              ("synonym_type_most_common_name", NaN)]]).
Proof. vm_compute. reflexivity. Qed.

Example merge_sample_table :
  table <$> (match frame_of (merge 0 "A" "B" 123) [sample] with
             | Ok out => Some out
             | _ => None
             end)
  = Some
      [(1, [Some (Str "A"); Some (Str "obsolete Foo"); Some (Str "orcid:1");
            Some (Str "owl:Class"); Some (Str "true"); Some (Str "");
            Some (Str "B"); Some (Str "Bar"); Some (Str "terms merged");
            Some (Str "https://github.com/monarch-initiative/vertebrate-breed-ontology/issues/123");
            Some (Str ""); Some (Str ""); Some (Str ""); Some (Str "")]);
       (1, [Some (Str "B"); Some (Str ""); Some (Str "orcid:1"); Some NaN;
            Some NaN; Some (Str "orcid:1"); Some NaN; Some NaN; Some NaN;
            Some (Str "https://github.com/monarch-initiative/vertebrate-breed-ontology/issues/123");
            Some (Str "Foo"); Some (Str "A"); Some (Str "");
            Some (Str "dog")]);
       (2, [Some (Str "B"); Some (Str "Bar"); Some (Str "orcid:2"); Some NaN;
            Some NaN; Some (Str "orcid:2"); Some NaN; Some NaN; Some NaN;
            Some NaN; Some NaN; Some NaN; Some (Str "x"); Some (Str "dog")])].
Proof. vm_compute. reflexivity. Qed.

Example merge_sample_missing_id :
  frame_of (merge 0 "VBO:404" "B" 123) [sample] = Raise IndexError.
Proof. vm_compute. reflexivity. Qed.

Example merge_no_label_column :
  frame_of (merge 0 "A" "B" 123) [mkFrame ["vbo_id"] []]
  = Raise (KeyError "term_label").
Proof. vm_compute. reflexivity. Qed.

Example merge_no_id_column :
  frame_of (merge 0 "A" "B" 123) [mkFrame ["term_label"] []]
  = Raise (KeyError "vbo_id").
Proof. vm_compute. reflexivity. Qed.

Example issue_url_123 :
  issue_url 123
  = "https://github.com/monarch-initiative/vertebrate-breed-ontology/issues/123".
Proof. reflexivity. Qed.

(** ** [merge] read off the table *)

Lemma frame_of_returns m h out : frame_of m h = Ok out ↔ returns m h out.
Proof.
  unfold frame_of, returns. split.
  - destruct (m h) as [[l'| |] h'] eqn:Hrun; [|done..].
    destruct (h' !! l') as [d|] eqn:Hout; [|done]. intros [= <-]. by eexists _, _.
  - intros (l' & h' & -> & ->). done.
Qed.

Lemma frame_of_raises m h e : frame_of m h = Raise e ↔ raises m h e.
Proof.
  unfold frame_of, raises. split.
  - destruct (m h) as [[l'| |] h'] eqn:Hrun; [|by intros [= <-]; eexists|done].
    by destruct (h' !! l').
  - intros (h' & ->). done.
Qed.

(** The call of [merge] on a table of the store comes to [merged] of that
    table, wherever the table lives and whatever else the store holds. *)
Lemma frame_of_merge h l df A B issue :
  h !! l = Some df → frame_of (merge l A B issue) h = merged df A B issue.
Proof.
  intros Hl. unfold merged.
  destruct (decide ("vbo_id" ∈ columns df)) as [Hid|Hid].
  2: { unfold frame_of. by erewrite merge_run_no_id. }
  destruct (decide ("term_label" ∈ columns df)) as [Hlabel|Hlabel].
  2: { unfold frame_of. by erewrite merge_run_no_label. }
  destruct (matching B df) as [|rb rB] eqn:HB.
  { unfold frame_of. by erewrite merge_run_no_replacement. }
  destruct (matching A df) as [|ra rA] eqn:HA.
  { unfold frame_of. erewrite merge_run_no_obsolete; [done..|by rewrite HB|done]. }
  unfold frame_of.
  erewrite (merge_run h l df A B issue (cell_at "term_label" ra)
              (cell_at "term_label" rb)); [|done..| |].
  - by rewrite lookup_new.
  - by rewrite HA.
  - by rewrite HB.
Qed.

Lemma merge_run_Ok h l A B issue l' h' :
  merge l A B issue h = (Ok l', h') →
  ∃ df out t, h !! l = Some df ∧ merged df A B issue = Ok out
              ∧ l' = length h + 5 ∧ h' = h ++ t ∧ t !! 5 = Some out.
Proof.
  intros Hrun. destruct (h !! l) as [df|] eqn:Hl.
  2: { by rewrite merge_run_dangling in Hrun. }
  exists df. unfold merged.
  destruct (decide ("vbo_id" ∈ columns df)) as [Hid|Hid].
  2: { by rewrite (merge_run_no_id _ _ _ _ _ _ Hl Hid) in Hrun. }
  destruct (decide ("term_label" ∈ columns df)) as [Hlabel|Hlabel].
  2: { by rewrite (merge_run_no_label _ _ _ _ _ _ Hl Hid Hlabel) in Hrun. }
  destruct (matching B df) as [|rb rB] eqn:HB.
  { by rewrite (merge_run_no_replacement _ _ _ _ _ _ Hl Hid Hlabel HB) in Hrun. }
  destruct (matching A df) as [|ra rA] eqn:HA.
  { rewrite (merge_run_no_obsolete _ _ _ _ _ _ Hl Hid Hlabel) in Hrun;
      [done|by rewrite HB|done]. }
  rewrite (merge_run h l df A B issue (cell_at "term_label" ra)
             (cell_at "term_label" rb) (cell_at "term_label" <$> rA)
             (cell_at "term_label" <$> rB)) in Hrun; [|done..| |].
  - injection Hrun as <- <-. eexists _, _. done.
  - by rewrite HA.
  - by rewrite HB.
Qed.

(** X5.  Among tables whose label column is text, the frame that [merge]
    returns, or the exception it raises, depends on the header of the table
    and on the rows of the two terms only: the rows of other terms, the
    place of the table in the store and the rest of the store make no
    difference.  (Without the condition the rows of other terms count: they
    decide whether pandas holds the label column as text.) *)
Theorem merge_depends_on_terms h1 l1 df1 h2 l2 df2 A B issue :
  h1 !! l1 = Some df1 → h2 !! l2 = Some df2 →
  text_column "term_label" df1 → text_column "term_label" df2 →
  columns df1 = columns df2 →
  matching A df1 = matching A df2 → matching B df1 = matching B df2 →
  frame_of (merge l1 A B issue) h1 = frame_of (merge l2 A B issue) h2.
Proof.
  intros Hl1 Hl2 _ _ Hcols HA HB.
  rewrite (frame_of_merge _ _ _ _ _ _ Hl1), (frame_of_merge _ _ _ _ _ _ Hl2).
  unfold merged, select. by rewrite Hcols, HA, HB.
Qed.

Lemma merge_depends_on_terms_witness :
  frame_of (merge 0 "A" "B" 123) [sample]
  = frame_of (merge 1 "A" "B" 123) [bare_sample; sample_two].
Proof.
  apply (merge_depends_on_terms [sample] 0 sample
           [bare_sample; sample_two] 1 sample_two "A" "B" 123).
  - reflexivity.
  - reflexivity.
  - compute_done.
  - compute_done.
  - reflexivity.
  - vm_compute. reflexivity.
  - vm_compute. reflexivity.
Defined.

(** X4.  The reference that [merge] returns is new: it names no object of
    the store in which the call began, the input table in particular, and
    it names an object of the store that the call leaves. *)
Theorem merge_returns_fresh h l A B issue l' h' :
  merge l A B issue h = (Ok l', h') →
  h !! l' = None ∧ l' ≠ l ∧ is_Some (h' !! l').
Proof.
  intros Hrun.
  destruct (merge_run_Ok _ _ _ _ _ _ _ Hrun) as (df & out & t & Hl & _ & -> & -> & Ht).
  split; [|split].
  - apply lookup_ge_None. lia.
  - apply lookup_lt_Some in Hl. lia.
  - rewrite lookup_new. by eexists.
Qed.

Lemma merge_returns_fresh_witness :
  [sample] !! 6 = None ∧ 6 ≠ 0
  ∧ is_Some ((merge 0 "A" "B" 123 [sample]).2 !! 6).
Proof.
  apply (merge_returns_fresh [sample] 0 "A" "B" 123 6
           (merge 0 "A" "B" 123 [sample]).2).
  vm_compute. reflexivity.
Defined.

(** ** The ids of the returned rows *)

Lemma filter_has_id_same x rs : Forall (has_id x) rs → filter (has_id x) rs = rs.
Proof.
  induction 1 as [|r rs Hr _ IH]; [done|].
  by rewrite filter_cons, decide_True, IH.
Qed.

Lemma filter_has_id_other x y rs :
  x ≠ y → Forall (has_id y) rs → filter (has_id x) rs = [].
Proof.
  intros Hne. induction 1 as [|r rs Hr _ IH]; [done|].
  rewrite filter_cons, decide_False; [done|].
  unfold has_id in *. congruence.
Qed.

(** The rows of the returned frame, by term: first as many rows of the
    obsolete id as the table has, then as many rows of the replacement id,
    then the rows of the replacement term. *)
Lemma merge_returns_ids h l df A B issue out :
  h !! l = Some df → returns (merge l A B issue) h out →
  ∃ o1s o2s rs,
    rows out = o1s ++ o2s ++ rs ∧
    length o1s = length (matching A df) ∧
    length o2s = length (matching A df) ∧
    length rs = length (matching B df) ∧
    Forall (has_id A) o1s ∧ Forall (has_id B) o2s ∧ Forall (has_id B) rs ∧
    "vbo_id" ∈ columns out ∧ "term_label" ∈ columns out ∧
    matching A df ≠ [] ∧ matching B df ≠ [].
Proof.
  intros Hl Hret.
  destruct (merge_returns_inv _ _ _ _ _ _ _ Hl Hret) as (Hid & Hlabel & HA & HB).
  destruct (matching A df) as [|ra rA] eqn:HmA; [done|].
  destruct (matching B df) as [|rb rB] eqn:HmB; [done|].
  destruct (merge_returns h l df A B issue ra rA rb rB)
    as (cs & Hcs & Hret'); [done..|].
  rewrite (returns_inj _ _ _ _ Hret Hret'). cbn [rows columns].
  eexists _, _, _. split; [reflexivity|].
  rewrite !length_fmap. do 3 (split; [done|]).
  split; [|split; [|split]].
  - apply Forall_fmap. rewrite <-HmA.
    eapply Forall_impl; [apply Forall_matching|]. intros r Hr. cbn [compose].
    by apply has_id_fill_row, has_id_obsoletion_row.
  - apply Forall_fmap, Forall_forall. intros r _. cbn [compose].
    apply has_id_fill_row, has_id_synonym_row.
  - apply Forall_fmap. rewrite <-HmB.
    eapply Forall_impl; [apply Forall_matching|]. intros r Hr.
    by apply has_id_fill_row.
  - split; [apply Hcs; by left|]. split; [apply Hcs; by left|]. done.
Qed.

(** X6.  Every row that [merge] returns is a row of one of the two terms:
    with [m] rows of the obsolete id in the table, the first [m] returned
    rows carry the obsolete id and all the others carry the replacement id.
    No row of another term reaches the result. *)
Theorem merge_rows_of_terms h l df A B issue out :
  h !! l = Some df → returns (merge l A B issue) h out →
  Forall (has_id A) (take (length (matching A df)) (rows out)) ∧
  Forall (has_id B) (drop (length (matching A df)) (rows out)).
Proof.
  intros Hl Hret.
  destruct (merge_returns_ids _ _ _ _ _ _ _ Hl Hret)
    as (o1s & o2s & rs & -> & Hn1 & _ & _ & Ho1 & Ho2 & Hrs & _).
  rewrite <-Hn1, take_app_length, drop_app_length.
  split; [done|]. by apply Forall_app.
Qed.

Lemma merge_rows_of_terms_witness :
  Forall (has_id "A") (take (length (matching "A" sample)) (rows sample_merged)) ∧
  Forall (has_id "B") (drop (length (matching "A" sample)) (rows sample_merged)).
Proof.
  apply (merge_rows_of_terms [sample] 0 sample "A" "B" 123 sample_merged).
  - reflexivity.
  - exists 6, (merge 0 "A" "B" 123 [sample]).2. split; vm_compute; reflexivity.
Defined.

(** X2.  Merging the returned frame again, with the same ids, returns as
    well, and returns more rows: when the two ids differ, every obsoletion
    row is obsoleted once more and the synonym rows count as rows of the
    replacement term, which gives the rows of the first result and one more
    for every row of the obsolete id; when the two ids are equal, three
    times the rows of the first result. *)
Theorem merge_again_row_count h l df A B issue out h2 l2 :
  h !! l = Some df → returns (merge l A B issue) h out →
  h2 !! l2 = Some out →
  ∃ out2,
    returns (merge l2 A B issue) h2 out2 ∧
    length (rows out2)
    = if decide (A = B) then 3 * length (rows out)
      else length (rows out) + length (matching A df).
Proof.
  intros Hl Hret Hl2.
  destruct (merge_returns_ids _ _ _ _ _ _ _ Hl Hret)
    as (o1s & o2s & rs & Hrows & Hn1 & Hn2 & Hn3 & Ho1 & Ho2 & Hrs
        & Hid & Hlabel & HA & HB).
  assert (length (matching A df) ≠ 0) as HmA by (by destruct (matching A df)).
  assert (length (matching B df) ≠ 0) as HmB by (by destruct (matching B df)).
  assert (matching A out
          = if decide (A = B) then rows out else o1s) as HoutA.
  { unfold matching. rewrite Hrows, !filter_app.
    rewrite (filter_has_id_same A o1s Ho1). case_decide as HAB.
    - subst B. by rewrite (filter_has_id_same A o2s Ho2), (filter_has_id_same A rs Hrs).
    - rewrite (filter_has_id_other A B o2s HAB Ho2),
        (filter_has_id_other A B rs HAB Hrs). by rewrite !app_nil_r. }
  assert (matching B out
          = if decide (A = B) then rows out else o2s ++ rs) as HoutB.
  { unfold matching. rewrite Hrows, !filter_app.
    rewrite (filter_has_id_same B o2s Ho2), (filter_has_id_same B rs Hrs).
    case_decide as HAB.
    - subst B. by rewrite (filter_has_id_same A o1s Ho1).
    - by rewrite (filter_has_id_other B A o1s (not_eq_sym HAB) Ho1). }
  assert (length (rows out)
          = 2 * length (matching A df) + length (matching B df)) as Hlen.
  { rewrite Hrows, !length_app. lia. }
  destruct (matching A out) as [|ra' rA'] eqn:HmA'.
  { apply (f_equal length) in HoutA. cbn [length] in HoutA.
    case_decide; lia. }
  destruct (matching B out) as [|rb' rB'] eqn:HmB'.
  { apply (f_equal length) in HoutB. cbn [length] in HoutB.
    case_decide; [lia|]. rewrite length_app in HoutB. lia. }
  destruct (merge_returns h2 l2 out A B issue ra' rA' rb' rB')
    as (cs2 & _ & Hret2); [done..|].
  eexists. split; [exact Hret2|]. cbn [rows].
  rewrite !length_app, !length_fmap.
  apply (f_equal length) in HoutA, HoutB. rewrite HoutA, HoutB.
  case_decide; [lia|]. rewrite length_app. lia.
Qed.

Lemma merge_again_row_count_witness :
  ∃ out2,
    returns (merge 0 "A" "B" 123) [sample_merged] out2 ∧
    length (rows out2)
    = if decide ("A" = "B") then 3 * length (rows sample_merged)
      else length (rows sample_merged) + length (matching "A" sample).
Proof.
  apply (merge_again_row_count [sample] 0 sample "A" "B" 123 sample_merged
           [sample_merged] 0).
  - reflexivity.
  - exists 6, (merge 0 "A" "B" 123 [sample]).2. split; vm_compute; reflexivity.
  - reflexivity.
Defined.

(** X1.  On a rectangular table the frame that [merge] returns is
    rectangular: no column name occurs twice in its header and every
    returned row has a cell for exactly the columns of the header. *)
Theorem merge_keeps_rectangular h l df A B issue out :
  h !! l = Some df → wf_frame df → returns (merge l A B issue) h out →
  wf_frame out.
Proof. apply merge_returns_wf. Qed.

Lemma merge_keeps_rectangular_witness : wf_frame sample_merged.
Proof.
  apply (merge_keeps_rectangular [sample] 0 sample "A" "B" 123 sample_merged).
  - reflexivity.
  - compute_done.
  - exists 6, (merge 0 "A" "B" 123 [sample]).2. split; vm_compute; reflexivity.
Defined.

(** ** The header of the returned frame *)

Lemma add_columns_prefix cs acc :
  ∃ extra, foldl (λ acc' c', add_column c' acc') acc cs = acc ++ extra.
Proof.
  revert acc. induction cs as [|c cs IH]; intros acc; cbn [foldl].
  - exists []. by rewrite app_nil_r.
  - unfold add_column at 2. case_decide; [apply IH|].
    destruct (IH (acc ++ [c])) as [extra ->]. exists (c :: extra).
    by rewrite <-app_assoc.
Qed.

Lemma add_columns_app cs acc :
  NoDup (acc ++ cs) → foldl (λ acc' c', add_column c' acc') acc cs = acc ++ cs.
Proof.
  revert acc. induction cs as [|c cs IH]; intros acc Hnd; cbn [foldl].
  - by rewrite app_nil_r.
  - assert (c ∉ acc) as Hc.
    { apply NoDup_app in Hnd as (_ & Hnd & _). intros Hc. apply (Hnd c Hc). left. }
    unfold add_column. rewrite decide_False by done.
    rewrite IH; rewrite <-app_assoc; done.
Qed.

Lemma columns_obsoletion_frame d B lbl issue :
  columns (obsoletion_frame d B lbl issue)
  = foldl (λ acc' c', add_column c' acc') (columns d)
      ("term_label" :: obsoletion_assigned).
Proof.
  unfold obsoletion_frame, obsoletion_assigned.
  cbn [columns assign assign_series foldl]. by rewrite blank_frame_columns.
Qed.

Lemma columns_synonym_frame d A B lbl issue :
  columns (synonym_frame d A B lbl issue)
  = foldl (λ acc' c', add_column c' acc') (columns d) synonym_assigned.
Proof. reflexivity. Qed.

(** X3.  The header of the returned frame begins with the header of the
    table, in its order; after it come the columns that [merge] assigns and
    the table does not have, and no other column.  On a table that has
    every expected column the returned frame has the header of the table. *)
Theorem merge_header h l df A B issue out :
  h !! l = Some df → wf_frame df → returns (merge l A B issue) h out →
  ∃ extra,
    columns out = columns df ++ extra ∧
    (∀ c, c ∈ extra ↔
          (c ∉ columns df) ∧ (c ∈ obsoletion_assigned ∨ c ∈ synonym_assigned)) ∧
    (expected_columns ⊆ columns df → columns out = columns df).
Proof.
  intros Hl [Hnd _] Hret.
  destruct (merge_returns_inv _ _ _ _ _ _ _ Hl Hret) as (Hid & Hlabel & HA & HB).
  destruct (matching A df) as [|ra rA] eqn:HmA; [done|].
  destruct (matching B df) as [|rb rB] eqn:HmB; [done|].
  destruct (merge_returns h l df A B issue ra rA rb rB)
    as (cs & Hcs & Hret'); [done..|].
  pose proof Hret as Hout. apply frame_of_returns in Hout.
  rewrite (frame_of_merge _ _ _ _ _ _ Hl) in Hout. unfold merged in Hout.
  rewrite !decide_True, HmA, HmB in Hout by done. injection Hout as Hout.
  pose proof (returns_inj _ _ _ _ Hret Hret') as Hshape.
  assert (columns out = cs) as Hcols by (by rewrite Hshape).
  assert (∃ extra, columns out = columns df ++ extra) as [extra Hextra].
  { rewrite <-Hout. unfold concat_frames, union_columns. cbn [columns foldl].
    rewrite columns_obsoletion_frame, columns_synonym_frame. cbn [columns select].
    set (c1 := foldl _ (columns df) ("term_label" :: obsoletion_assigned)).
    assert (foldl (λ acc' c', add_column c' acc') [] c1 = c1) as ->.
    { rewrite add_columns_app; [done|]. cbn [app]. by apply NoDup_add_columns. }
    destruct (add_columns_prefix ("term_label" :: obsoletion_assigned) (columns df))
      as [e1 He1]. fold c1 in He1.
    destruct (add_columns_prefix
                (foldl (λ acc' c', add_column c' acc') (columns df) synonym_assigned)
                c1) as [e2 ->].
    destruct (add_columns_prefix (columns df) (c1 ++ e2)) as [e3 ->].
    exists (e1 ++ e2 ++ e3). rewrite He1. by rewrite <-!app_assoc. }
  assert (NoDup (columns df ++ extra)) as Hnd'.
  { rewrite <-Hextra, <-Hout. apply NoDup_union_columns. }
  assert (∀ c, c ∈ extra ↔
               (c ∉ columns df) ∧ (c ∈ obsoletion_assigned ∨ c ∈ synonym_assigned))
    as Hin.
  { intros c. apply NoDup_app in Hnd' as (_ & Hdisj & _). split.
    - intros Hc. split; [intros Hc'; by apply (Hdisj c Hc')|].
      assert (c ∈ cs) as Hc' by (rewrite <-Hcols, Hextra, elem_of_app; by right).
      apply Hcs in Hc' as [Hc'|Hc']; [|done]. by destruct (Hdisj c Hc').
    - intros [Hc Hassigned].
      assert (c ∈ cs) as Hc' by (apply Hcs; by right).
      rewrite <-Hcols, Hextra, elem_of_app in Hc'. by destruct Hc'. }
  exists extra. split; [done|]. split; [done|].
  intros Hexp. destruct extra as [|c extra]; [by rewrite Hextra, app_nil_r|].
  destruct (proj1 (Hin c)) as [Hc Hassigned]; [left|].
  destruct Hc. by apply Hexp, assigned_expected.
Qed.

Lemma merge_header_witness :
  ∃ extra,
    columns sample_merged = columns sample ++ extra ∧
    (∀ c, c ∈ extra ↔
          (c ∉ columns sample)
          ∧ (c ∈ obsoletion_assigned ∨ c ∈ synonym_assigned)) ∧
    (expected_columns ⊆ columns sample → columns sample_merged = columns sample).
Proof.
  apply (merge_header [sample] 0 sample "A" "B" 123 sample_merged).
  - reflexivity.
  - compute_done.
  - exists 6, (merge 0 "A" "B" 123 [sample]).2. split; vm_compute; reflexivity.
Defined.

(** ** A term without label *)



(** ** The driver *)

Lemma io_bind_run {A B} (m : IO A) (k : A → IO B) w a w' :
  m w = (Returned a, w') → (m ≫= k) w = k a w'.
Proof. intros Hm. unfold mbind, IO_bind. by rewrite Hm. Qed.

Lemma io_bind_failed {A B} (m : IO A) (k : A → IO B) w e w' :
  m w = (Failed e, w') → (m ≫= k) w = (Failed e, w').
Proof. intros Hm. unfold mbind, IO_bind. by rewrite Hm. Qed.

Lemma merged_returns df A B issue out :
  merged df A B issue = Ok out ↔ returns (merge 0 A B issue) [df] out.
Proof. by rewrite <-frame_of_returns, (frame_of_merge [df] 0 df). Qed.

Lemma merged_raises df A B issue e :
  merged df A B issue = Raise e ↔ raises (merge 0 A B issue) [df] e.
Proof. by rewrite <-frame_of_raises, (frame_of_merge [df] 0 df). Qed.

Lemma merged_not_dangling df A B issue : merged df A B issue ≠ Dangling.
Proof. unfold merged. repeat case_decide; repeat case_match; done. Qed.

(** [merge] inside the driver, on the table just read. *)
Lemma lift_merge_returns fs cs table A B issue out :
  merged table A B issue = Ok out →
  ∃ t, lift (merge (length fs) A B issue) (mkWorld (fs ++ [table]) cs)
       = (Returned (length (fs ++ [table]) + 5),
          mkWorld ((fs ++ [table]) ++ t) cs)
       ∧ t !! 5 = Some out.
Proof.
  intros Hout. unfold lift. cbn [frames calls].
  assert ((fs ++ [table]) !! length fs = Some table) as Hl
    by apply list_lookup_middle, eq_refl.
  destruct (merge (length fs) A B issue (fs ++ [table])) as [[l'|e|] h'] eqn:Hrun.
  - destruct (merge_run_Ok _ _ _ _ _ _ _ Hrun)
      as (df & out' & t & Hl' & Hout' & -> & -> & Ht).
    assert (Some df = Some table) as [= ->] by exact (eq_trans (eq_sym Hl') Hl).
    rewrite Hout in Hout'. injection Hout' as <-.
    by exists t.
  - assert (frame_of (merge (length fs) A B issue) (fs ++ [table]) = Raise e) as Hf
      by (unfold frame_of; by rewrite Hrun).
    rewrite (frame_of_merge _ _ _ _ _ _ Hl) in Hf. congruence.
  - assert (frame_of (merge (length fs) A B issue) (fs ++ [table]) = Dangling) as Hf
      by (unfold frame_of; by rewrite Hrun).
    rewrite (frame_of_merge _ _ _ _ _ _ Hl) in Hf. congruence.
Qed.

Lemma lift_merge_raises fs cs table A B issue e :
  merged table A B issue = Raise e →
  ∃ t, lift (merge (length fs) A B issue) (mkWorld (fs ++ [table]) cs)
       = (Failed (Frame_error e), mkWorld ((fs ++ [table]) ++ t) cs).
Proof.
  intros Hout. unfold lift. cbn [frames calls].
  assert ((fs ++ [table]) !! length fs = Some table) as Hl
    by apply list_lookup_middle, eq_refl.
  destruct (merge_store (fs ++ [table]) (length fs) A B issue) as [t Ht].
  pose proof (frame_of_merge _ _ _ A B issue Hl) as Hf. unfold frame_of in Hf.
  destruct (merge (length fs) A B issue (fs ++ [table])) as [[l'|e'|] h'] eqn:Hrun;
    cbn [snd] in Ht; subst h'.
  - destruct (((fs ++ [table]) ++ t) !! l'); congruence.
  - exists t. congruence.
  - congruence.
Qed.

Lemma obsolete_and_write_run_ok env w url A B issue path table out :
  fetch env url tab = Some table → merged table A B issue = Ok out →
  ∃ fs,
    obsolete_and_write env url A B issue path w
    = (if can_write env path then Returned tt else Failed Write_error,
       mkWorld (frames w ++ table :: fs)
               (calls w ++ [Read_csv url tab; To_csv out path tab false])).
Proof.
  intros Hfetch Hout. unfold obsolete_and_write.
  erewrite io_bind_run by (unfold read_csv; by rewrite Hfetch).
  destruct (lift_merge_returns (frames w) (calls w ++ [Read_csv url tab])
              table A B issue out Hout) as (t & Hrun & Ht).
  erewrite io_bind_run by exact Hrun.
  exists t. unfold to_csv. cbn [frames calls].
  rewrite lookup_new, Ht, <-!app_assoc. cbn [app]. by destruct (can_write env path).
Qed.

Lemma obsolete_and_write_run_raise env w url A B issue path table e :
  fetch env url tab = Some table → merged table A B issue = Raise e →
  ∃ fs,
    obsolete_and_write env url A B issue path w
    = (Failed (Frame_error e),
       mkWorld (frames w ++ table :: fs) (calls w ++ [Read_csv url tab])).
Proof.
  intros Hfetch Hout. unfold obsolete_and_write.
  erewrite io_bind_run by (unfold read_csv; by rewrite Hfetch).
  destruct (lift_merge_raises (frames w) (calls w ++ [Read_csv url tab])
              table A B issue e Hout) as (t & Hrun).
  erewrite io_bind_failed by exact Hrun.
  exists t. by rewrite <-app_assoc.
Qed.

Lemma obsolete_and_write_run_unread env w url A B issue path :
  fetch env url tab = None →
  obsolete_and_write env url A B issue path w
  = (Failed Read_error, mkWorld (frames w) (calls w ++ [Read_csv url tab])).
Proof.
  intros Hfetch. unfold obsolete_and_write.
  erewrite io_bind_failed; [done|]. unfold read_csv. by rewrite Hfetch.
Qed.

(** X8.  A run of [obsolete_and_write] first calls [pd.read_csv] on the
    URL, with the tab as separator, and makes at most one more call: a
    [to_csv] of the frame that [merge] returns for the table read, to
    [outfile], with the tab as separator and without the index.  It makes
    no other call, it never writes when the read or [merge] raised, and it
    leaves the objects that were there as they were. *)
Theorem obsolete_and_write_calls env w url A B issue path :
  ∃ new fs,
    (obsolete_and_write env url A B issue path w).2
    = mkWorld (frames w ++ fs) (calls w ++ Read_csv url tab :: new) ∧
    (new = [] ∨
     ∃ table out,
       fetch env url tab = Some table ∧
       returns (merge 0 A B issue) [table] out ∧
       new = [To_csv out path tab false]).
Proof.
  destruct (fetch env url tab) as [table|] eqn:Hfetch.
  2: { exists [], []. rewrite obsolete_and_write_run_unread by done.
       rewrite app_nil_r. split; [done|by left]. }
  destruct (merged table A B issue) as [out|e|] eqn:Hout.
  - destruct (obsolete_and_write_run_ok env w url A B issue path table out)
      as [fs ->]; [done..|].
    exists [To_csv out path tab false], (table :: fs). split; [done|].
    right. exists table, out. split; [done|]. split; [|done].
    by apply merged_returns.
  - destruct (obsolete_and_write_run_raise env w url A B issue path table e)
      as [fs ->]; [done..|].
    exists [], (table :: fs). split; [done|by left].
  - by destruct (merged_not_dangling table A B issue).
Qed.

(** X9.  When the table read has rows for both ids (so that [merge]
    returns), [obsolete_and_write] ends in its [to_csv] call: it passes the
    frame that [merge] returned, which holds the rows of the two terms only
    and not the rest of the table read, and it returns when the file can be
    written. *)
Theorem obsolete_and_write_writes env w url A B issue path table out :
  fetch env url tab = Some table →
  returns (merge 0 A B issue) [table] out →
  calls (obsolete_and_write env url A B issue path w).2
  = calls w ++ [Read_csv url tab; To_csv out path tab false] ∧
  (obsolete_and_write env url A B issue path w).1
  = (if can_write env path then Returned tt else Failed Write_error) ∧
  length (rows out) = 2 * length (matching A table) + length (matching B table).
Proof.
  intros Hfetch Hret.
  destruct (obsolete_and_write_run_ok env w url A B issue path table out)
    as [fs ->]; [done|by apply merged_returns|].
  do 2 (split; [done|]).
  destruct (merge_returns_ids [table] 0 table A B issue out eq_refl Hret)
    as (o1s & o2s & rs & -> & Hn1 & Hn2 & Hn3 & _).
  rewrite !length_app. lia.
Qed.

Lemma obsolete_and_write_writes_witness :
  calls (obsolete_and_write (sheet_env sample) template_url "VBO:1" "B" 123
           outfile (mkWorld [] [])).2
  = [] ++ [Read_csv template_url tab;
           To_csv (match merged sample "VBO:1" "B" 123 with
                   | Ok out => out
                   | _ => sample
                   end) outfile tab false] ∧
  (obsolete_and_write (sheet_env sample) template_url "VBO:1" "B" 123
     outfile (mkWorld [] [])).1
  = (if can_write (sheet_env sample) outfile then Returned tt
     else Failed Write_error) ∧
  length (rows (match merged sample "VBO:1" "B" 123 with
                | Ok out => out
                | _ => sample
                end))
  = 2 * length (matching "VBO:1" sample) + length (matching "B" sample).
Proof.
  apply (obsolete_and_write_writes (sheet_env sample) (mkWorld [] [])
           template_url "VBO:1" "B" 123 outfile sample).
  - vm_compute. reflexivity.
  - exists 6, (merge 0 "VBO:1" "B" 123 [sample]).2. split; vm_compute; reflexivity.
Defined.

(** X10.  When [merge] raises on the table read (a missing id, a missing
    [vbo_id] or [term_label] column), [obsolete_and_write] ends with that
    exception and has made no [to_csv] call: nothing is written. *)
Theorem obsolete_and_write_merge_raises env w url A B issue path table e :
  fetch env url tab = Some table →
  raises (merge 0 A B issue) [table] e →
  (obsolete_and_write env url A B issue path w).1 = Failed (Frame_error e) ∧
  calls (obsolete_and_write env url A B issue path w).2
  = calls w ++ [Read_csv url tab].
Proof.
  intros Hfetch Hraise.
  destruct (obsolete_and_write_run_raise env w url A B issue path table e)
    as [fs ->]; [done|by apply merged_raises|]. done.
Qed.

Lemma obsolete_and_write_merge_raises_witness :
  (obsolete_and_write (sheet_env sample) template_url "VBO:0200238"
     "VBO:0200239" 123 outfile (mkWorld [] [])).1
  = Failed (Frame_error IndexError) ∧
  calls (obsolete_and_write (sheet_env sample) template_url "VBO:0200238"
           "VBO:0200239" 123 outfile (mkWorld [] [])).2
  = [] ++ [Read_csv template_url tab].
Proof.
  apply (obsolete_and_write_merge_raises (sheet_env sample) (mkWorld [] [])
           template_url "VBO:0200238" "VBO:0200239" 123 outfile sample
           IndexError).
  - vm_compute. reflexivity.
  - exists (merge 0 "VBO:0200238" "VBO:0200239" 123 [sample]).2.
    vm_compute. reflexivity.
Defined.
